(** * Scan orchestration and analytics of the smart-audit dashboard

    A shallow embedding of the dashboard's API routes
    ([api/scan/route.ts] and [api/analytics/route.ts]) and the
    properties of risk scoring, path validation, status tracking, the
    history ledger and the analytics aggregation; then of the routes
    around them (status, cached report, upload), of the severity counts
    of the dashboard page and of the diagnostics of the editor
    extension.

    Modelling conventions.
    - JavaScript numbers are exact rationals ([Q]) where the code
      multiplies by a confidence, and integers ([Z]) elsewhere.
      [Math.round x] is [floor (x + 1/2)].
    - Strings are ASCII text, one character per code unit.
    - An object used as a dictionary is an association list in insertion
      order, read through its own properties as its [Record<string, _>]
      type describes it (keys that look like array indices, which
      JavaScript enumerates first, and names inherited from
      [Object.prototype] are outside the model).
    - Timestamps are within the range of a JavaScript [Date]; the date of
      a scan is the ISO string that [toISOString] gives, compared as a
      string, which for the years 0000 to 9999 is the calendar order.
    - The [data/status] and [data/cache] directories are finite maps from
      scan ids to records; the ledger file is an optional list.  A file
      that is missing or does not parse is absent from the map.
    - Everything the route obtains from outside (request body, uuid,
      file system, external commands, whether a write reaches the disk)
      is a field of an explicit environment. *)

From Stdlib Require Import ZArith QArith Qround Lqa Lia.
From Stdlib Require Import List String Ascii Bool.
From Stdlib Require Import Sorting.Sorted Sorting.Permutation.
From Stdlib Require OrderedTypeEx.
From stdpp Require Import base option gmap strings.
Import ListNotations.

Local Open Scope string_scope.
Local Open Scope Z_scope.
Local Open Scope list_scope.

(** ** JavaScript primitives used by the routes *)
Module Js.

(** [Math.round]: nearest integer, halves towards plus infinity. *)
Definition Math_round (x : Q) : Z := Qfloor (x + (1 # 2)).

(** [x || d] on an optional number: [undefined] and [0] are falsy. *)
Definition or_num (x : option Q) (d : Q) : Q :=
  match x with
  | Some v => if Qeq_bool v 0 then d else v
  | None => d
  end.

(** [x || d] on an optional string: [undefined] and [''] are falsy. *)
Definition or_str (x : option string) (d : string) : string :=
  match x with
  | Some "" => d
  | Some v => v
  | None => d
  end.

(** Own-property read [o[k]] of an object literal. *)
Fixpoint prop {A} (o : list (string * A)) (k : string) : option A :=
  match o with
  | [] => None
  | (k', v) :: o' => if String.eqb k' k then Some v else prop o' k
  end.

(** The update idiom [if (!o[k]) o[k] = init; o[k] = f(o[k])] and its
    one-line form [o[k] = f(o[k] || init)]: an existing key keeps its
    place in the enumeration order, a new key goes last. *)
Fixpoint upsert {A} (o : list (string * A)) (k : string) (init : A) (f : A -> A)
  : list (string * A) :=
  match o with
  | [] => [(k, f init)]
  | (k', v) :: o' =>
      if String.eqb k' k then (k', f v) :: o' else (k', v) :: upsert o' k init f
  end.

(** [s.split(sep)] for a one-character separator. *)
Fixpoint split (sep : ascii) (s : string) : list string :=
  match s with
  | EmptyString => [EmptyString]
  | String c s' =>
      if Ascii.eqb c sep then EmptyString :: split sep s'
      else match split sep s' with
           | w :: ws => String c w :: ws
           | [] => [String c EmptyString]
           end
  end.

(** [s.includes(sub)]. *)
Fixpoint includes (s sub : string) : bool :=
  String.prefix sub s ||
  match s with
  | EmptyString => false
  | String _ s' => includes s' sub
  end.

(** [s.endsWith(suffix)]. *)
Definition endsWith (s suffix : string) : bool :=
  let n := String.length s in
  let m := String.length suffix in
  (m <=? n)%nat && String.eqb (String.substring (n - m) m s) suffix.

Fixpoint map_chars (f : ascii -> ascii) (s : string) : string :=
  match s with
  | EmptyString => EmptyString
  | String c s' => String (f c) (map_chars f s')
  end.

Definition in_range (lo hi c : ascii) : bool :=
  (nat_of_ascii lo <=? nat_of_ascii c)%nat && (nat_of_ascii c <=? nat_of_ascii hi)%nat.

Definition lower_char (c : ascii) : ascii :=
  if in_range "A" "Z" c then ascii_of_nat (nat_of_ascii c + 32) else c.

Definition upper_char (c : ascii) : ascii :=
  if in_range "a" "z" c then ascii_of_nat (nat_of_ascii c - 32) else c.

Definition toLowerCase : string -> string := map_chars lower_char.

(** White space in the sense of [trim]: tab, LF, VT, FF, CR and space. *)
Definition is_space (c : ascii) : bool :=
  in_range "009" "013" c || Ascii.eqb c " ".

Fixpoint trimStart (s : string) : string :=
  match s with
  | EmptyString => EmptyString
  | String c s' => if is_space c then trimStart s' else s
  end.

Fixpoint trimEnd (s : string) : string :=
  match s with
  | EmptyString => EmptyString
  | String c s' =>
      match trimEnd s' with
      | EmptyString => if is_space c then EmptyString else String c EmptyString
      | t => String c t
      end
  end.

Definition trim (s : string) : string := trimEnd (trimStart s).

(** [a.slice(0, n)] and [a.slice(-n)]. *)
Definition slice_to {A} (n : nat) (a : list A) : list A := firstn n a.
Definition slice_last {A} (n : nat) (a : list A) : list A :=
  skipn (List.length a - n) a.

(** [a.sort(cmp)]: the stable sort, the comparator returning a number
    that is negative, zero or positive. *)
Fixpoint sort_insert {A} (cmp : A -> A -> Z) (x : A) (a : list A) : list A :=
  match a with
  | [] => [x]
  | y :: a' => if cmp x y <=? 0 then x :: y :: a' else y :: sort_insert cmp x a'
  end.

Fixpoint sort {A} (cmp : A -> A -> Z) (a : list A) : list A :=
  match a with
  | [] => []
  | x :: a' => sort_insert cmp x (sort cmp a')
  end.

(** [a.localeCompare(b)] on the strings it is applied to: ISO dates, made
    of digits and hyphens, which collate in code-unit order. *)
Definition localeCompare (a b : string) : Z :=
  match String.compare a b with
  | Lt => -1
  | Eq => 0
  | Gt => 1
  end.

End Js.

(** ** Data model of [api/scan/route.ts] *)

(** One finding of the static or the AI pass (the [AuditFinding] shape). *)
Record Finding := mkFinding {
  tool : option string;
  severity : string;
  title : string;
  description : option string;
  location : string;
  confidence : option Q;
  reasoning : option string;
  suggested_fix : option string
}.

Record Metadata := mkMetadata {
  tools_used : list string;
  ai_enabled : bool;
  total_findings : Z;
  risk_score : Z;
  gas_optimization_count : Z
}.

Record ScanReport := mkScanReport {
  id : string;
  path : string;
  timestamp : Z;
  duration : Z;
  pipeline : string;
  static : list Finding;
  ai : list Finding;
  metadata : Metadata
}.

(** Assignments to the fields of a report and of a finding. *)
Definition with_findings (report : ScanReport) (st ai' : list Finding) : ScanReport :=
  mkScanReport (id report) (path report) (timestamp report) (duration report)
    (pipeline report) st ai' (metadata report).

Definition with_metadata (report : ScanReport) (m : Metadata) : ScanReport :=
  mkScanReport (id report) (path report) (timestamp report) (duration report)
    (pipeline report) (static report) (ai report) m.

Definition with_duration (report : ScanReport) (d : Z) : ScanReport :=
  mkScanReport (id report) (path report) (timestamp report) d
    (pipeline report) (static report) (ai report) (metadata report).

Definition set_severity (s : string) (f : Finding) : Finding :=
  mkFinding (tool f) s (title f) (description f) (location f) (confidence f)
    (reasoning f) (suggested_fix f).

(** ** Risk scoring *)
Module Risk.

Definition weights : list (string * Q) :=
  [("critical", 10%Q); ("high", 7%Q); ("medium", 4%Q); ("low", 2%Q); ("info", 1%Q)].

(** The body of the [forEach] callback: the finding's contribution. *)
Definition contribution (finding : Finding) : Q :=
  let weight := Js.or_num (Js.prop weights (severity finding)) 1 in
  let confidence := Js.or_num (confidence finding) (8 # 10) in
  (weight * confidence)%Q.

Definition calculateRiskScore (report : ScanReport) : Z :=
  let allFindings := static report ++ ai report in
  let score := fold_left (fun score finding => (score + contribution finding)%Q) allFindings 0%Q in
  Z.min (Js.Math_round score) 100.

(** *** The scorer as the specification words it *)

Definition spec_weight (sev : string) : Q :=
  if String.eqb sev "critical" then 10
  else if String.eqb sev "high" then 7
  else if String.eqb sev "medium" then 4
  else if String.eqb sev "low" then 2
  else if String.eqb sev "info" then 1
  else 0.                                (* not in the weight table *)

(** [weight(severity) * confidence], the confidence being 0.8 when the
    finding has none. *)
Definition spec_contribution (f : Finding) : Q :=
  (spec_weight (severity f) * default (8 # 10) (confidence f))%Q.

Fixpoint spec_total (fs : list Finding) : Q :=
  match fs with
  | [] => 0
  | f :: fs' => (spec_contribution f + spec_total fs')%Q
  end.

Definition spec_score (fs : list Finding) : Z :=
  Z.min (Js.Math_round (spec_total fs)) 100.

(** The canonical severities and their order. *)
Definition rank (sev : string) : option nat :=
  if String.eqb sev "info" then Some 0%nat
  else if String.eqb sev "low" then Some 1%nat
  else if String.eqb sev "medium" then Some 2%nat
  else if String.eqb sev "high" then Some 3%nat
  else if String.eqb sev "critical" then Some 4%nat
  else None.

Definition canonical (sev : string) : bool :=
  match rank sev with Some _ => true | None => false end.

Definition severity_le (s s' : string) : bool :=
  match rank s, rank s' with
  | Some a, Some b => (a <=? b)%nat
  | _, _ => false
  end.

(** The report in which the finding at position [i] of
    [[...report.static, ...report.ai]] has its severity replaced. *)
Definition raise_severity (report : ScanReport) (i : nat) (s' : string) : ScanReport :=
  let n := List.length (static report) in
  if (i <? n)%nat then
    with_findings report (alter (set_severity s') i (static report)) (ai report)
  else
    with_findings report (static report) (alter (set_severity s') (i - n)%nat (ai report)).

End Risk.

Definition countGasOptimizations (report : ScanReport) : Z :=
  let gasKeywords := ["gas"; "optimization"; "efficiency"; "cost"] in
  let allFindings := static report ++ ai report in
  fold_left
    (fun count finding =>
       let text :=
         Js.toLowerCase
           (title finding ++ " " ++ Js.or_str (description finding) "")%string in
       if existsb (fun keyword => Js.includes text keyword) gasKeywords
       then count + 1 else count)
    allFindings 0.

(** ** Path validation *)
Module Path.

(** Segment-wise normalisation: empty and ["."] segments disappear, [".."]
    removes the segment before it and is dropped at the root. *)
Fixpoint normalize_segments (acc segs : list string) : list string :=
  match segs with
  | [] => rev acc
  | seg :: rest =>
      if String.eqb seg "" || String.eqb seg "." then normalize_segments acc rest
      else if String.eqb seg ".." then normalize_segments (tl acc) rest
      else normalize_segments (seg :: acc) rest
  end.

Definition isAbsolute (p : string) : bool := String.prefix "/" p.

(** [path.resolve(p)] on POSIX, [cwd] being [process.cwd()]. *)
Definition resolve (cwd p : string) : string :=
  let full := if isAbsolute p then p else (cwd ++ "/" ++ p)%string in
  ("/" ++ String.concat "/" (normalize_segments [] (Js.split "/" full)))%string.


End Path.

(** What [fs.stat] and [fs.readdir] report about a path. *)
Inductive FsNode :=
| FsFile
| FsDirectory (entries : option (list string))
| FsOther.

Module Validation.

Record t := mk {
  isValid : bool;
  path : option string;
  error : option string
}.

Definition invalid (msg : string) : t := mk false None (Some msg).

(** [stat p = None] when [fs.stat] rejects; a directory whose entries are
    [None] is one that [fs.readdir] rejects. *)
Definition validateContractPath (cwd : string) (stat : string -> option FsNode)
    (contractPath : string) : t :=
  let resolvedPath := Path.resolve cwd contractPath in
  if negb (Js.includes resolvedPath cwd) then
    invalid "Invalid file path - outside project directory"
  else
    match stat resolvedPath with
    | None => invalid "File or directory not found"
    | Some FsFile =>
        if negb (Js.endsWith resolvedPath ".sol") then
          invalid "Only .sol files are supported"
        else mk true (Some resolvedPath) None
    | Some (FsDirectory None) => invalid "File or directory not found"
    | Some (FsDirectory (Some files)) =>
        let solFiles := List.filter (fun f => Js.endsWith f ".sol") files in
        if (List.length solFiles =? 0)%nat then
          invalid "No .sol files found in directory"
        else mk true (Some resolvedPath) None
    | Some FsOther => invalid "Path must be a file or directory"
    end.

End Validation.

(** ** Persisted records *)
Module Status.

Record t := mk {
  scanId : string;
  status : string;
  message : string;
  timestamp : Z
}.

End Status.

Module History.

Record Entry := mk {
  id : string;
  path : string;
  timestamp : Z;
  duration : Z;
  findings_count : Z;
  risk_score : Z;
  status : string;
  pipeline : string;
  ai_enabled : bool
}.

(** The list computation of [saveToHistory] between the read and the
    write of the ledger file: [unshift], then [slice(0, 100)] when the
    list has grown beyond 100. *)
Definition append (historyEntry : Entry) (history : list Entry) : list Entry :=
  let history := historyEntry :: history in
  if (100 <? List.length history)%nat then Js.slice_to 100 history else history.

(** [GET] of [api/history/route.ts]: the ledger, or the empty list when
    the file cannot be read. *)
Definition GET (ledger : option (list Entry)) : list Entry := default [] ledger.

End History.

(** ** The scan route *)
Module Scan.

Record ScanRequest := mkScanRequest {
  contractPath : option string;
  includeAI : option bool;
  req_severity : option string;
  tools : option (list string);
  req_pipeline : option string
}.

(** Outcome of one external command followed by the read of
    [last_report.json]: the time it took, and either the message of the
    error raised or the findings array of the document ([None] when the
    document has no such field). *)
Record Exec := mkExec {
  elapsed : Z;
  outcome : string + option (list Finding)
}.

(** The places where the route writes to the disk. *)
Inductive WriteSite :=
| AtInitializing | AtStatic | AtAI | AtProcessing
| AtHistory | AtCache | AtCompleted | AtFailed.

Record Env := mkEnv {
  uuid : string;                       (* the value of [uuidv4()] *)
  body : string + ScanRequest;         (* [request.json()]: error message or body *)
  cwd : string;                        (* [process.cwd()] *)
  stat : string -> option FsNode;
  static_run : Exec;
  ai_run : Exec;
  disk_ok : WriteSite -> bool          (* does the write at this place succeed *)
}.

Record World := mkWorld {
  statuses : gmap string Status.t;     (* data/status/<id>.json *)
  cache : gmap string ScanReport;      (* data/cache/<id>.json *)
  ledger : option (list History.Entry);(* data/scan_history.json *)
  issued : list string;                (* scan ids generated so far *)
  now : Z                              (* [Date.now()] *)
}.

Inductive Response :=
| Ok (report : ScanReport)
| Error (httpStatus : Z) (error : option string) (code : string) (scanId : option string).

Definition issue (scanId : string) (w : World) : World :=
  mkWorld (statuses w) (cache w) (ledger w) (scanId :: issued w) (now w).

Definition advance (ms : Z) (w : World) : World :=
  mkWorld (statuses w) (cache w) (ledger w) (issued w) (now w + ms).

(** The three persistence helpers run their body in a [try] block whose
    [catch] only logs: [written] tells whether the body got as far as
    completing its [fs.writeFile]. *)
Definition updateScanStatus (written : bool)
    (scanId status message : string) (w : World) : World :=
  if written then
    let statusData := Status.mk scanId status message (now w) in
    mkWorld (<[scanId := statusData]> (statuses w)) (cache w) (ledger w) (issued w) (now w)
  else w.

Definition cacheReport (written : bool) (scanId : string) (report : ScanReport)
    (w : World) : World :=
  if written then
    mkWorld (statuses w) (<[scanId := report]> (cache w)) (ledger w) (issued w) (now w)
  else w.

Definition historyEntry (report : ScanReport) : History.Entry :=
  History.mk (id report) (path report) (timestamp report) (duration report)
    (total_findings (metadata report)) (risk_score (metadata report))
    "completed" (pipeline report) (ai_enabled (metadata report)).

(** A ledger file that is missing or does not parse reads as the empty
    list (the inner [catch]). *)
Definition saveToHistory (written : bool) (report : ScanReport) (w : World) : World :=
  if written then
    let history := default [] (ledger w) in
    let history := History.append (historyEntry report) history in
    mkWorld (statuses w) (cache w) (Some history) (issued w) (now w)
  else w.

Definition runStaticAnalysis (env : Env) (w : World) : (string + list Finding) * World :=
  let w := advance (elapsed (static_run env)) w in
  match outcome (static_run env) with
  | inl message => (inl ("Static analysis failed: " ++ message)%string, w)
  | inr cliStatic => (inr (default [] cliStatic), w)
  end.

Definition runAIAnalysis (env : Env) (w : World) : list Finding * World :=
  let w := advance (elapsed (ai_run env)) w in
  match outcome (ai_run env) with
  | inl _ => ([], w)
  | inr cliAi => (default [] cliAi, w)
  end.

Definition executeScanPipeline (env : Env) (scanId contractPath : string)
    (includeAI : bool) (severity : string) (tools : list string) (pipeline : string)
    (w : World) : (string + ScanReport) * World :=
  let report :=
    mkScanReport scanId contractPath (now w / 1000) 0 pipeline [] []
      (mkMetadata tools includeAI 0 0 0) in
  let w := updateScanStatus (disk_ok env AtStatic) scanId "running" "Running static analysis..." w in
  match runStaticAnalysis env w with
  | (inl message, w) => (inl ("Pipeline execution failed: " ++ message)%string, w)
  | (inr staticResults, w) =>
      let report := with_findings report staticResults (ai report) in
      let '(report, w) :=
        if includeAI then
          let w := updateScanStatus (disk_ok env AtAI) scanId "running" "Running AI analysis..." w in
          let '(aiResults, w) := runAIAnalysis env w in
          (with_findings report (static report) aiResults, w)
        else (report, w) in
      let w := updateScanStatus (disk_ok env AtProcessing) scanId "running" "Processing results..." w in
      let m := metadata report in
      let total := Z.of_nat (List.length (static report)) + Z.of_nat (List.length (ai report)) in
      let report :=
        with_metadata report
          (mkMetadata (tools_used m) (ai_enabled m) total (risk_score m)
             (gas_optimization_count m)) in
      let m := metadata report in
      let report :=
        with_metadata report
          (mkMetadata (tools_used m) (ai_enabled m) (total_findings m) (risk_score m)
             (countGasOptimizations report)) in
      (inr report, w)
  end.

(** The [catch] block of [POST]. *)
Definition on_error (env : Env) (scanId message : string) (w : World) : Response * World :=
  let w := updateScanStatus (disk_ok env AtFailed) scanId "failed" message w in
  (Error 500 (Some (Js.or_str (Some message) "Internal server error")) "SCAN_FAILED"
     (Some scanId), w).

Definition POST (env : Env) (w : World) : Response * World :=
  let scanId := uuid env in
  let w := issue scanId w in
  let startTime := now w in
  match body env with
  | inl message => on_error env scanId message w
  | inr request =>
      let includeAI := default true (includeAI request) in
      let severity := default "medium" (req_severity request) in
      let tools := default ["slither"; "mythril"; "solhint"] (tools request) in
      let pipeline := default "thorough" (req_pipeline request) in
      match contractPath request with
      | None | Some "" =>
          (Error 400 (Some "Contract path is required") "MISSING_PATH" None, w)
      | Some contractPath =>
          let resolvedPath :=
            Validation.validateContractPath (cwd env) (stat env) contractPath in
          if negb (Validation.isValid resolvedPath) then
            (Error 400 (Validation.error resolvedPath) "INVALID_PATH" None, w)
          else
            let w :=
              updateScanStatus (disk_ok env AtInitializing) scanId "running"
                "Initializing scan pipeline..." w in
            match
              executeScanPipeline env scanId (default "" (Validation.path resolvedPath))
                includeAI severity tools pipeline w
            with
            | (inl message, w) => on_error env scanId message w
            | (inr report, w) =>
                let duration := now w - startTime in
                let report := with_duration report duration in
                let m := metadata report in
                let report :=
                  with_metadata report
                    (mkMetadata (tools_used m) (ai_enabled m) (total_findings m)
                       (Risk.calculateRiskScore report) (gas_optimization_count m)) in
                let w := saveToHistory (disk_ok env AtHistory) report w in
                let w := cacheReport (disk_ok env AtCache) scanId report w in
                let w :=
                  updateScanStatus (disk_ok env AtCompleted) scanId "completed"
                    "Scan completed successfully" w in
                (Ok report, w)
            end
      end
  end.

(** A run of [saveToHistory] calls, each with its report and with whether
    its write reached the disk, and the entries those calls appended,
    newest first. *)
Definition save_all (calls : list (ScanReport * bool)) (w : World) : World :=
  fold_left (fun w call => saveToHistory (snd call) (fst call) w) calls w.

Definition appended (calls : list (ScanReport * bool)) : list History.Entry :=
  rev (map (fun call => historyEntry (fst call)) (List.filter snd calls)).

(** What the specification says of the ledger file after a run of
    appends: nothing changes without an append; otherwise the file holds
    the 100 most recent entries, the new ones before the ones the file
    held, newest first. *)
Definition ledger_after (new : list History.Entry) (before : option (list History.Entry))
  : option (list History.Entry) :=
  match new with
  | [] => before
  | _ => Some (firstn 100 (new ++ default [] before))
  end.

End Scan.

(** ** The analytics route *)
Module Date.

Definition digit (n : Z) : ascii := ascii_of_nat (48 + Z.to_nat (n mod 10)).

(** The last [width] decimal digits of [n], most significant first. *)
Fixpoint pad (width : nat) (n : Z) : string :=
  match width with
  | O => EmptyString
  | S w => (pad w (n / 10) ++ String (digit n) EmptyString)%string
  end.

(** Year, month and day of the proleptic Gregorian calendar for a day
    number counted from 1970-01-01. *)
Definition civil (days : Z) : Z * Z * Z :=
  let z := days + 719468 in
  let era := z / 146097 in
  let doe := z - era * 146097 in
  let yoe := (doe - doe / 1460 + doe / 36524 - doe / 146096) / 365 in
  let doy := doe - (365 * yoe + yoe / 4 - yoe / 100) in
  let mp := (5 * doy + 2) / 153 in
  let d := doy - (153 * mp + 2) / 5 + 1 in
  let m := if mp <? 10 then mp + 3 else mp - 9 in
  let y := yoe + era * 400 + (if m <=? 2 then 1 else 0) in
  (y, m, d).

(** [new Date(ms).toISOString()]. *)
Definition toISOString (ms : Z) : string :=
  let days := ms / 86400000 in
  let rest := ms mod 86400000 in
  let '(y, m, d) := civil days in
  let year :=
    if ((0 <=? y) && (y <=? 9999))%Z then pad 4 y
    else ((if (y <? 0)%Z then "-" else "+") ++ pad 6 (Z.abs y))%string in
  (year ++ "-" ++ pad 2 m ++ "-" ++ pad 2 d ++ "T"
     ++ pad 2 (rest / 3600000) ++ ":" ++ pad 2 (rest / 60000 mod 60) ++ ":"
     ++ pad 2 (rest / 1000 mod 60) ++ "." ++ pad 3 (rest mod 1000) ++ "Z")%string.

End Date.

Module Analytics.

(** The record [trends[date]] of [calculateScanTrends] and the element of
    the series it returns. *)
Module Bucket.
Record t := mk {
  date : string;
  scans : Z;
  findings : Z;
  riskScores : list Z
}.
End Bucket.

Record Trend := mkTrend {
  date : string;
  scans : Z;
  findings : Z;
  avgRiskScore : Z
}.

(** [new Date(scan.timestamp * 1000).toISOString().split('T')[0]]. *)
Definition scan_date (scan : History.Entry) : string :=
  hd "" (Js.split "T" (Date.toISOString (History.timestamp scan * 1000))).

Definition sum (l : list Z) : Z := fold_left (fun a b => a + b) l 0.

(** The callback of [history.forEach]; a ledger number [n] is its own
    [n || 0]. *)
Definition add_scan (trends : list (string * Bucket.t)) (scan : History.Entry)
  : list (string * Bucket.t) :=
  let date := scan_date scan in
  Js.upsert trends date (Bucket.mk date 0 0 [])
    (fun t =>
       Bucket.mk (Bucket.date t) (Bucket.scans t + 1)
         (Bucket.findings t + History.findings_count scan)
         (Bucket.riskScores t ++ [History.risk_score scan])).

Definition trend_of (trend : Bucket.t) : Trend :=
  let n := List.length (Bucket.riskScores trend) in
  mkTrend (Bucket.date trend) (Bucket.scans trend) (Bucket.findings trend)
    (if (0 <? n)%nat then
       Js.Math_round (inject_Z (sum (Bucket.riskScores trend)) / inject_Z (Z.of_nat n))
     else 0).

Definition calculateScanTrends (history : list History.Entry) : list Trend :=
  let trends := fold_left add_scan history [] in
  Js.slice_last 30
    (Js.sort (fun a b => Js.localeCompare (date a) (date b))
       (map trend_of (map snd trends))).

(** The record [vulnerabilities[key]] of [calculateDetailedAnalytics] and
    the element of [topVulnerabilities]. *)
Module Cluster.
Record t := mk {
  count : Z;
  severities : list string
}.
End Cluster.

Module Vulnerability.
Record t := mk {
  title : string;
  count : Z;
  avgSeverity : string
}.
End Vulnerability.

Definition getMostCommonSeverity (severities : list string) : string :=
  let counts :=
    fold_left (fun counts severity => Js.upsert counts severity 0 (fun n => n + 1))
      severities [] in
  Js.or_str
    (option_map fst (hd_error (Js.sort (fun a b => snd b - snd a) counts)))
    "medium".

(** [title.toLowerCase().replace(/[^a-z0-9]/g, ' ').trim()]. *)
Definition cluster_key (title : string) : string :=
  Js.trim
    (Js.map_chars
       (fun c => if Js.in_range "a" "z" c || Js.in_range "0" "9" c then c else " "%char)
       (Js.toLowerCase title)).

(** [word.charAt(0).toUpperCase() + word.slice(1)]. *)
Definition capitalize (word : string) : string :=
  match word with
  | EmptyString => EmptyString
  | String c rest => String (Js.upper_char c) rest
  end.

Definition display_title (key : string) : string :=
  String.concat " " (map capitalize (Js.split " " key)).

Record Acc := mkAcc {
  acc_severityDistribution : list (string * Z);
  acc_vulnerabilities : list (string * Cluster.t);
  acc_reads : list string               (* cache files opened, oldest first *)
}.

(** The callback of [allFindings.forEach]. *)
Definition add_finding (acc : Acc) (finding : Finding) : Acc :=
  let severityDistribution :=
    Js.upsert (acc_severityDistribution acc) (severity finding) 0 (fun n => n + 1) in
  let key := cluster_key (title finding) in
  let vulnerabilities :=
    Js.upsert (acc_vulnerabilities acc) key (Cluster.mk 0 [])
      (fun v =>
         Cluster.mk (Cluster.count v + 1)
           (Cluster.severities v ++ [severity finding])) in
  mkAcc severityDistribution vulnerabilities (acc_reads acc).

(** The body of the [for] loop: a cache file that cannot be read or
    parsed takes the [catch] branch and the loop continues. *)
Definition add_report (cache : gmap string ScanReport) (acc : Acc)
    (scan : History.Entry) : Acc :=
  let acc :=
    mkAcc (acc_severityDistribution acc) (acc_vulnerabilities acc)
      (acc_reads acc ++ [History.id scan]) in
  match cache !! History.id scan with
  | None => acc
  | Some report => fold_left add_finding (static report ++ ai report) acc
  end.

Record Detailed := mkDetailed {
  severityDistribution : list (string * Z);
  topVulnerabilities : list Vulnerability.t
}.

Definition vulnerability_of (entry : string * Cluster.t) : Vulnerability.t :=
  let '(title, data) := entry in
  Vulnerability.mk (display_title title) (Cluster.count data)
    (getMostCommonSeverity (Cluster.severities data)).

(** Returns the analytics together with the cache files it opened. *)
Definition calculateDetailedAnalytics (cache : gmap string ScanReport)
    (history : list History.Entry) : list string * Detailed :=
  let acc :=
    fold_left (add_report cache) (Js.slice_to 50 history) (mkAcc [] [] []) in
  let topVulnerabilities :=
    Js.slice_to 10
      (Js.sort (fun a b => Vulnerability.count b - Vulnerability.count a)
         (map vulnerability_of (acc_vulnerabilities acc))) in
  (acc_reads acc, mkDetailed (acc_severityDistribution acc) topVulnerabilities).

Module Snapshot.
Record t := mk {
  totalScans : Z;
  totalFindings : Z;
  averageRiskScore : Z;
  severityDistribution : list (string * Z);
  toolUsage : list (string * Z);
  scanTrends : list Trend;
  topVulnerabilities : list Vulnerability.t
}.
End Snapshot.

(** [GET] of [api/analytics/route.ts], from the ledger file and the cache
    directory. *)
Definition GET (ledger : option (list History.Entry)) (cache : gmap string ScanReport)
  : Snapshot.t :=
  match ledger with
  | None => Snapshot.mk 0 0 0 [] [] [] []
  | Some history =>
      let n := Z.of_nat (List.length history) in
      let detailedAnalytics := snd (calculateDetailedAnalytics cache history) in
      Snapshot.mk n
        (fold_left (fun sum scan => sum + History.findings_count scan) history 0)
        (if 0 <? n then
           Js.Math_round
             (inject_Z (fold_left (fun sum scan => sum + History.risk_score scan) history 0)
              / inject_Z n)
         else 0)
        (severityDistribution detailedAnalytics) []
        (calculateScanTrends history)
        (topVulnerabilities detailedAnalytics)
  end.

(** *** The aggregation as the specification words it *)

(** The distinct members of a list in the order in which they are first
    met. *)
Definition first_seen (l : list string) : list string :=
  fold_left (fun ks k => if existsb (String.eqb k) ks then ks else ks ++ [k]) l [].

(** The ledger entries of one UTC calendar date and their bucket: number
    of scans, summed findings, rounded mean risk score. *)
Definition on_date (d : string) (history : list History.Entry) : list History.Entry :=
  List.filter (fun scan => String.eqb (scan_date scan) d) history.

Definition spec_trend (d : string) (history : list History.Entry) : Trend :=
  let scans := on_date d history in
  mkTrend d (Z.of_nat (List.length scans))
    (sum (map History.findings_count scans))
    (Js.Math_round
       (inject_Z (sum (map History.risk_score scans))
        / inject_Z (Z.of_nat (List.length scans)))).

(** The order of dates: that of their ISO strings. *)
Definition date_lt (a b : string) : Prop := String.compare a b = Lt.

(** The value a grouping holds at key [k] once the list [l] has been
    folded in: the members of [l] of that key, applied in order to the
    initial value. *)
Definition folded {A V} (key : A -> string) (init : string -> V) (step : A -> V -> V)
    (k : string) (l : list A) : V :=
  fold_left (fun v a => step a v) (List.filter (fun a => String.eqb (key a) k) l) (init k).

(** The initial values and callbacks of the groupings above, by name. *)
Definition bucket_init (d : string) : Bucket.t := Bucket.mk d 0 0 [].

Definition bucket_step (scan : History.Entry) (t : Bucket.t) : Bucket.t :=
  Bucket.mk (Bucket.date t) (Bucket.scans t + 1)
    (Bucket.findings t + History.findings_count scan)
    (Bucket.riskScores t ++ [History.risk_score scan]).

Definition severity_step (o : list (string * Z)) (f : Finding) : list (string * Z) :=
  Js.upsert o (severity f) 0 (fun n => n + 1).

Definition cluster_step (f : Finding) (v : Cluster.t) : Cluster.t :=
  Cluster.mk (Cluster.count v + 1)
    (Cluster.severities v ++ [severity f]).

Definition vulnerability_step (o : list (string * Cluster.t)) (f : Finding)
  : list (string * Cluster.t) :=
  Js.upsert o (cluster_key (title f)) (Cluster.mk 0 []) (cluster_step f).

(** The findings of the readable reports of a list of ledger entries. *)
Definition findings_of (cache : gmap string ScanReport) (scans : list History.Entry)
  : list Finding :=
  flat_map
    (fun scan =>
       match cache !! History.id scan with
       | Some report => static report ++ ai report
       | None => []
       end)
    scans.

(** Whether the cache file of a ledger entry can be read. *)
Definition readable (cache : gmap string ScanReport) (scan : History.Entry) : bool :=
  match cache !! History.id scan with
  | Some _ => true
  | None => false
  end.







End Analytics.

(** The shape of every run of [POST]. *)
Inductive post_case (env : Scan.Env) (w : Scan.World) : Scan.Response * Scan.World -> Prop :=
| post_bad_body message :
    Scan.body env = inl message ->
    post_case env w (Scan.on_error env (Scan.uuid env) message (Scan.issue (Scan.uuid env) w))
| post_missing_path request :
    Scan.body env = inr request ->
    Scan.contractPath request = None \/ Scan.contractPath request = Some "" ->
    post_case env w
      (Scan.Error 400 (Some "Contract path is required") "MISSING_PATH" None,
       Scan.issue (Scan.uuid env) w)
| post_invalid_path request contractPath :
    Scan.body env = inr request ->
    Scan.contractPath request = Some contractPath -> contractPath <> "" ->
    let resolvedPath :=
      Validation.validateContractPath (Scan.cwd env) (Scan.stat env) contractPath in
    Validation.isValid resolvedPath = false ->
    post_case env w
      (Scan.Error 400 (Validation.error resolvedPath) "INVALID_PATH" None,
       Scan.issue (Scan.uuid env) w)
| post_pipeline_failed request contractPath message w1 :
    Scan.body env = inr request ->
    Scan.contractPath request = Some contractPath -> contractPath <> "" ->
    Validation.isValid
      (Validation.validateContractPath (Scan.cwd env) (Scan.stat env) contractPath) = true ->
    Scan.ledger w1 = Scan.ledger w -> Scan.cache w1 = Scan.cache w ->
    post_case env w (Scan.on_error env (Scan.uuid env) message w1)
| post_completed request contractPath report0 w1 :
    Scan.body env = inr request ->
    Scan.contractPath request = Some contractPath -> contractPath <> "" ->
    Validation.isValid
      (Validation.validateContractPath (Scan.cwd env) (Scan.stat env) contractPath) = true ->
    Scan.ledger w1 = Scan.ledger w -> Scan.cache w1 = Scan.cache w ->
    id report0 = Scan.uuid env ->
    (exists cliStatic, Scan.outcome (Scan.static_run env) = inr cliStatic
                       /\ static report0 = default [] cliStatic) ->
    ai report0 = (if default true (Scan.includeAI request) then
                    match Scan.outcome (Scan.ai_run env) with
                    | inl _ => []
                    | inr cliAi => default [] cliAi
                    end
                  else []) ->
    let report1 := with_duration report0 (Scan.now w1 - Scan.now w) in
    let m := metadata report1 in
    let report :=
      with_metadata report1
        (mkMetadata (tools_used m) (ai_enabled m) (total_findings m)
           (Risk.calculateRiskScore report1) (gas_optimization_count m)) in
    post_case env w
      (Scan.Ok report,
       Scan.updateScanStatus (Scan.disk_ok env Scan.AtCompleted) (Scan.uuid env)
         "completed" "Scan completed successfully"
         (Scan.cacheReport (Scan.disk_ok env Scan.AtCache) (Scan.uuid env) report
            (Scan.saveToHistory (Scan.disk_ok env Scan.AtHistory) report w1))).

(** ** Concrete inputs used by the examples below *)
Module Sample.

Definition finding (sev title : string) (conf : option Q) : Finding :=
  mkFinding (Some "slither") sev title None "Token.sol:12" conf None None.

Definition report (st ai' : list Finding) : ScanReport :=
  mkScanReport "scan-1" "/app/contracts/Token.sol" 1754462806 0 "thorough" st ai'
    (mkMetadata ["slither"] true 0 0 0).

(** One high finding whose confidence is the number zero. *)
Definition zero_confidence : ScanReport :=
  report [finding "high" "Reentrancy" (Some 0%Q)] [].

Definition two_findings : ScanReport :=
  report [finding "high" "Reentrancy" (Some (1 # 2)%Q)] [finding "medium" "Use of tx.origin" None].

Definition fresh : Scan.World := Scan.mkWorld ∅ ∅ None [] 1754462806000.

Definition project (p : string) : option FsNode :=
  if String.eqb p "/app/contracts/Token.sol" then Some FsFile
  else if String.eqb p "/tmp/app/Token.sol" then Some FsFile
  else if String.eqb p "/app/contracts" then Some (FsDirectory (Some ["Token.sol"; "README.md"]))
  else None.

Definition request (p : string) : Scan.ScanRequest :=
  Scan.mkScanRequest (Some p) (Some false) None None None.

Definition env (p : string) (static_outcome : string + option (list Finding))
    (disk : Scan.WriteSite -> bool) : Scan.Env :=
  Scan.mkEnv "3f2a" (inr (request p)) "/app" project
    (Scan.mkExec 4000 static_outcome) (Scan.mkExec 9000 (inr None)) disk.

Definition disk_fine : Scan.WriteSite -> bool := fun _ => true.

(** The disk refuses the write of the final [failed] record only. *)
Definition disk_fails_late (site : Scan.WriteSite) : bool :=
  match site with
  | Scan.AtFailed => false
  | _ => true
  end.


(** A path outside the project that has the project path inside it. *)
Definition env_sibling : Scan.Env := env "/tmp/app/Token.sol" (inr None) disk_fine.

(** The static analyser exits with an error. *)
Definition env_static_fails (disk : Scan.WriteSite -> bool) : Scan.Env :=
  env "contracts/Token.sol" (inl "Command failed: spoon-audit scan") disk.

(** The AI pass is asked for and times out. *)
Definition env_ai_fails : Scan.Env :=
  Scan.mkEnv "3f2a"
    (inr (Scan.mkScanRequest (Some "contracts/Token.sol") None None None None))
    "/app" project
    (Scan.mkExec 4000 (inr (Some [finding "high" "Reentrancy" None])))
    (Scan.mkExec 300000 (inl "Command timed out")) disk_fine.

(** The static analyser reports a finding of an unknown severity. *)
Definition odd_finding : Finding := finding "catastrophic" "Unchecked call" None.
Definition env_odd_severity : Scan.Env :=
  env "contracts/Token.sol" (inr (Some [odd_finding])) disk_fine.

(** A ledger of three scans on two days; the cache holds the report of
    the newest scan only. *)
Definition entry (scan : string) (timestamp findings score : Z) : History.Entry :=
  History.mk scan "/app/contracts/Token.sol" timestamp 4000 findings score
    "completed" "thorough" false.

Definition history : list History.Entry :=
  [entry "scan-3" 1754462806 3 12; entry "scan-2" 1754460000 1 6;
   entry "scan-1" 1754300000 0 0].

Definition cache : gmap string ScanReport :=
  {[ "scan-3" :=
       report [finding "high" "Re-entrancy" None; finding "low" "re entrancy" None]
              [finding "medium" "Use of tx.origin" (Some (9 # 10)%Q)] ]}.

End Sample.

(** ** The routes that read the stores *)

(** [GET] of [api/status/[id]/route.ts]: the record of the scan, or a
    made-up [not_found] record when the file cannot be read. *)
Module StatusRoute.

Definition GET (statuses : gmap string Status.t) (id : string) (now : Z) : Status.t :=
  match statuses !! id with
  | Some status => status
  | None => Status.mk id "not_found" "Scan not found" now
  end.

End StatusRoute.

(** [GET] of [api/history/[id]/route.ts]: the cached report of a scan. *)
Module ReportRoute.

Inductive Response :=
| Found (report : ScanReport)
| NotFound (httpStatus : Z) (error : string).

Definition GET (cache : gmap string ScanReport) (id : string) : Response :=
  match cache !! id with
  | Some report => Found report
  | None => NotFound 404 "Report not found"
  end.

End ReportRoute.

(** ** The upload route *)
Module Upload.

Record File := mkFile {
  name : string;
  bytes : string
}.

(** What [request.formData()] and [formData.get('file')] give. *)
Inductive Form :=
| BadForm                                (* [formData()] rejects, or the field is not a file *)
| NoFile
| HasFile (file : File).

Inductive Response :=
| Uploaded (message path filename : string)
| Rejected (httpStatus : Z) (error : string).

(** [path.join(a, b)] for an absolute [a] and a [b] that does not end in
    a slash. *)
Definition join (a b : string) : string :=
  ("/" ++ String.concat "/" (Path.normalize_segments [] (Js.split "/" (a ++ "/" ++ b))))%string.

Definition filePath (cwd : string) (file : File) : string :=
  join (join cwd "uploads") (name file).

(** [disk] maps the path of a file to its content; [written] tells
    whether [mkdir] and [writeFile] succeed. *)
Definition POST (cwd : string) (form : Form) (written : bool) (disk : gmap string string)
  : Response * gmap string string :=
  match form with
  | BadForm => (Rejected 500 "Upload failed", disk)
  | NoFile => (Rejected 400 "No file uploaded", disk)
  | HasFile file =>
      if negb (Js.endsWith (name file) ".sol") then
        (Rejected 400 "Only .sol files are allowed", disk)
      else if written then
        (Uploaded "File uploaded successfully" ("uploads/" ++ name file) (name file),
         <[filePath cwd file := bytes file]> disk)
      else (Rejected 500 "Upload failed", disk)
  end.

(** The file system as [fs.stat] sees it once the disk holds the
    uploads: a path with a content is a file. *)
Definition stat_of (disk : gmap string string) (p : string) : option FsNode :=
  match disk !! p with
  | Some _ => Some FsFile
  | None => None
  end.

End Upload.

(** ** The editor extension: findings as diagnostics *)
Module Extension.

Inductive DiagnosticSeverity := Error | Warning | Information | Hint.

Module Diagnostic.
Record t := mk {
  line : Z;                              (* the range is the whole line *)
  message : string;
  severity : DiagnosticSeverity;
  source : string
}.
End Diagnostic.

Definition is_digit (c : ascii) : bool := Js.in_range "0" "9" c.

(** The value of the longest prefix of decimal digits, after [acc]. *)
Fixpoint digits_value (acc : Z) (s : string) : Z :=
  match s with
  | EmptyString => acc
  | String c s' =>
      if is_digit c then digits_value (acc * 10 + (Z.of_nat (nat_of_ascii c) - 48)) s'
      else acc
  end.

(** [parseInt(s, 10)], [None] standing for [NaN]: leading white space,
    an optional sign, then the longest prefix of digits. *)
Definition parseInt (s : option string) : option Z :=
  match s with
  | None => None
  | Some s =>
      let s := Js.trimStart s in
      let '(sign, digits) :=
        match s with
        | String "-" rest => (-1, rest)
        | String "+" rest => (1, rest)
        | _ => (1, s)
        end in
      match digits with
      | EmptyString => None
      | String c _ => if is_digit c then Some (sign * digits_value 0 digits) else None
      end
  end.

(** The [switch] of [createDiagnostic], on the severity in lower case. *)
Definition diagnostic_severity (lowered : string) : DiagnosticSeverity :=
  if String.eqb lowered "critical" || String.eqb lowered "high" then Error
  else if String.eqb lowered "medium" then Warning
  else if String.eqb lowered "low" || String.eqb lowered "info" then Information
  else Warning.

Definition createDiagnostic (finding : Finding) : option Diagnostic.t :=
  let lineStr := nth_error (Js.split ":" (location finding)) 1 in
  match parseInt lineStr with
  | None => None
  | Some n =>
      let lineNum := n - 1 in
      if lineNum <? 0 then None
      else
        let message :=
          match tool finding with
          | Some (String c t) => (String c t ++ ": " ++ title finding)%string
          | _ => title finding
          end in
        Some (Diagnostic.mk lineNum message
                (diagnostic_severity (Js.toLowerCase (severity finding))) "spoon-audit")
  end.

(** The two loops of [runScanCommand] over a parsed report: each
    diagnostic is pushed with its finding attached. *)
Definition push_diagnostic (diagnostics : list (Diagnostic.t * Finding)) (finding : Finding)
  : list (Diagnostic.t * Finding) :=
  match createDiagnostic finding with
  | Some diagnostic => diagnostics ++ [(diagnostic, finding)]
  | None => diagnostics
  end.

Definition diagnostics_of (static ai : list Finding) : list (Diagnostic.t * Finding) :=
  fold_left push_diagnostic ai (fold_left push_diagnostic static []).

Definition totalFindings (static ai : list Finding) : Z :=
  Z.of_nat (List.length static) + Z.of_nat (List.length ai).

End Extension.

(** ** The dashboard page: severity counts and the severity filter *)
Module Dashboard.




End Dashboard.

(** ** Vocabulary of the further properties *)

(** Every character of a string satisfies a test. *)
Fixpoint all_chars (p : ascii -> bool) (s : string) : bool :=
  match s with
  | EmptyString => true
  | String c s' => p c && all_chars p s'
  end.

(** The characters of a cluster key. *)
Definition key_char (c : ascii) : bool :=
  Js.in_range "a" "z" c || Js.in_range "0" "9" c || Ascii.eqb c " ".


(** A path segment that normalisation keeps as it is, and a name
    without a slash. *)
Definition plain_segment (seg : string) : bool :=
  negb (String.eqb seg "" || String.eqb seg "." || String.eqb seg "..").

Definition no_slash (s : string) : bool :=
  all_chars (fun c => negb (Ascii.eqb c "/")) s.

(** The status records after some steps of the scan [scanId]: the
    records of the other scans are as before, and the record of this scan
    is as before or is one of this scan in one of the statuses
    [allowed]. *)
Definition status_trace (scanId : string) (allowed : list string)
    (before after : gmap string Status.t) : Prop :=
  (forall other, other <> scanId -> after !! other = before !! other)
  /\ (after !! scanId = before !! scanId
      \/ exists st, after !! scanId = Some st
                    /\ Status.scanId st = scanId /\ In (Status.status st) allowed).

(** * Properties *)

(** ** Risk scoring *)

Local Abbreviation accumulate :=
  (fold_left (fun score finding => (score + Risk.contribution finding)%Q)).

Lemma rank_cases (s : string) (a : nat) :
  Risk.rank s = Some a ->
  (s = "info" /\ a = 0%nat) \/ (s = "low" /\ a = 1%nat) \/ (s = "medium" /\ a = 2%nat)
  \/ (s = "high" /\ a = 3%nat) \/ (s = "critical" /\ a = 4%nat).
Proof.
  unfold Risk.rank.
  repeat (match goal with
          | |- context [String.eqb s ?k] => destruct (String.eqb_spec s k)
          end; [intros [= <-]; tauto |]).
  discriminate.
Qed.

Lemma or_num_nonneg (x : option Q) (d : Q) :
  (0 <= d)%Q -> (forall c, x = Some c -> (0 <= c)%Q) -> (0 <= Js.or_num x d)%Q.
Proof.
  intros Hd Hx. unfold Js.or_num.
  destruct x as [v|]; [|exact Hd].
  destruct (Qeq_bool v 0); [exact Hd | auto].
Qed.

Lemma weight_pos (s : string) : (0 < Js.or_num (Js.prop Risk.weights s) 1)%Q.
Proof.
  unfold Risk.weights; cbn [Js.prop].
  repeat (match goal with
          | |- context [String.eqb ?k s] => destruct (String.eqb k s)
          end; [reflexivity |]).
  reflexivity.
Qed.

Lemma weight_monotone (s s' : string) :
  Risk.severity_le s s' = true ->
  (Js.or_num (Js.prop Risk.weights s) 1 <= Js.or_num (Js.prop Risk.weights s') 1)%Q.
Proof.
  unfold Risk.severity_le.
  destruct (Risk.rank s) as [a|] eqn:Ha; [|discriminate].
  destruct (Risk.rank s') as [b|] eqn:Hb; [|discriminate].
  intros Hle%Nat.leb_le.
  apply rank_cases in Ha, Hb.
  destruct Ha as [[-> ->]|[[-> ->]|[[-> ->]|[[-> ->]|[-> ->]]]]];
    destruct Hb as [[-> ->]|[[-> ->]|[[-> ->]|[[-> ->]|[-> ->]]]]];
    first [ lia | vm_compute; discriminate ].
Qed.

Lemma contribution_nonneg (f : Finding) :
  (forall c, confidence f = Some c -> (0 <= c)%Q) -> (0 <= Risk.contribution f)%Q.
Proof.
  intros Hc. unfold Risk.contribution.
  apply Qmult_le_0_compat.
  - apply Qlt_le_weak, weight_pos.
  - apply or_num_nonneg; [discriminate | exact Hc].
Qed.

Lemma contribution_raise (f : Finding) (s' : string) :
  Risk.severity_le (severity f) s' = true ->
  (forall c, confidence f = Some c -> (0 <= c)%Q) ->
  (Risk.contribution f <= Risk.contribution (set_severity s' f))%Q.
Proof.
  intros Hle Hc. unfold Risk.contribution; simpl.
  apply Qmult_le_compat_r.
  - apply weight_monotone, Hle.
  - apply or_num_nonneg; [discriminate | exact Hc].
Qed.

Lemma accumulate_monotone (l l' : list Finding) :
  Forall2 (fun f g => (Risk.contribution f <= Risk.contribution g)%Q) l l' ->
  forall a a', (a <= a')%Q -> (accumulate l a <= accumulate l' a')%Q.
Proof.
  induction 1 as [|f g l l' Hfg _ IH]; intros a a' Ha; simpl; [exact Ha|].
  apply IH. apply Qplus_le_compat; assumption.
Qed.

Lemma accumulate_lower (l : list Finding) :
  Forall (fun f => (0 <= Risk.contribution f)%Q) l ->
  forall a, (a <= accumulate l a)%Q.
Proof.
  induction 1 as [|f l Hf _ IH]; intros a; simpl; [apply Qle_refl|].
  eapply Qle_trans; [|apply IH]. lra.
Qed.

Lemma accumulate_spec (l : list Finding) :
  Forall (fun f => (Risk.contribution f == Risk.spec_contribution f)%Q) l ->
  forall a, (accumulate l a == a + Risk.spec_total l)%Q.
Proof.
  induction 1 as [|f l Hf _ IH]; intros a; simpl; [lra|].
  rewrite IH, Hf. lra.
Qed.

Lemma Math_round_monotone (x y : Q) : (x <= y)%Q -> Js.Math_round x <= Js.Math_round y.
Proof. intros H. apply Qfloor_resp_le. lra. Qed.

Lemma alter_related {A} (R : A -> A -> Prop) (g : A -> A) (l : list A) (i : nat) (x : A) :
  (forall y, R y y) -> l !! i = Some x -> R x (g x) -> Forall2 R l (alter g i l).
Proof.
  intros Hrefl. revert i.
  induction l as [|y l IH]; intros [|i] Hi Hx; simpl in *; try discriminate.
  - injection Hi as ->. constructor; [exact Hx|]. clear IH.
    induction l; constructor; auto.
  - constructor; [apply Hrefl | apply IH; assumption].
Qed.

Lemma weight_canonical (s : string) :
  Risk.canonical s = true ->
  (Js.or_num (Js.prop Risk.weights s) 1 == Risk.spec_weight s)%Q.
Proof.
  unfold Risk.canonical.
  destruct (Risk.rank s) as [a|] eqn:Ha; [intros _|discriminate].
  apply rank_cases in Ha.
  destruct Ha as [[-> ->]|[[-> ->]|[[-> ->]|[[-> ->]|[-> ->]]]]]; reflexivity.
Qed.

Lemma contribution_spec (f : Finding) :
  Risk.canonical (severity f) = true ->
  (forall c, confidence f = Some c -> ~ (c == 0)%Q) ->
  (Risk.contribution f == Risk.spec_contribution f)%Q.
Proof.
  intros Hs Hc. unfold Risk.contribution, Risk.spec_contribution.
  rewrite (weight_canonical _ Hs).
  apply Qmult_comp; [reflexivity|].
  unfold Js.or_num. destruct (confidence f) as [c|]; simpl; [|reflexivity].
  destruct (Qeq_bool c 0) eqn:E; [|reflexivity].
  apply Qeq_bool_iff in E. destruct (Hc c eq_refl E).
Qed.

(** On findings whose severity is canonical and whose confidence, when
    present, is not zero, the code computes the score of the
    specification. *)
Lemma risk_score_spec (report : ScanReport) :
  Forall (fun f => Risk.canonical (severity f) = true
                   /\ forall c, confidence f = Some c -> ~ (c == 0)%Q)
         (static report ++ ai report) ->
  Risk.calculateRiskScore report = Risk.spec_score (static report ++ ai report).
Proof.
  intros H. unfold Risk.calculateRiskScore, Risk.spec_score.
  f_equal. unfold Js.Math_round. apply Qfloor_comp.
  rewrite accumulate_spec; [lra|].
  eapply List.Forall_impl; [|exact H].
  intros f [Hs Hc]. apply contribution_spec; assumption.
Qed.

(** With confidences that are not negative the score lies in [0, 100]. *)
Lemma risk_score_range (report : ScanReport) :
  Forall (fun f => forall c, confidence f = Some c -> (0 <= c)%Q)
         (static report ++ ai report) ->
  0 <= Risk.calculateRiskScore report <= 100.
Proof.
  intros H. unfold Risk.calculateRiskScore. split; [|apply Z.le_min_r].
  apply Z.min_glb; [|lia].
  change 0 with (Js.Math_round 0). apply Math_round_monotone.
  apply accumulate_lower.
  eapply List.Forall_impl; [|exact H]. intros f. apply contribution_nonneg.
Qed.

Lemma risk_score_empty (report : ScanReport) :
  static report = [] -> ai report = [] -> Risk.calculateRiskScore report = 0.
Proof. intros Hs Ha. unfold Risk.calculateRiskScore. rewrite Hs, Ha. reflexivity. Qed.

(** The scenario of the specification: one high and one medium finding,
    both without confidence, score 9. *)
Example risk_score_scenario :
  Risk.calculateRiskScore
    (Sample.report [Sample.finding "high" "a" None; Sample.finding "medium" "b" None] []) = 9.
Proof. reflexivity. Qed.

(** C1: the score is the rounded, clamped sum of weight times confidence,
    the confidence being 0.8 when absent.  The code departs from this at
    a confidence that is present and equal to zero: [finding.confidence
    || 0.8] takes the number 0 for a missing value, so a high finding of
    confidence 0 scores round(7 * 0.8) = 6 where the formula gives
    round(7 * 0) = 0. *)
Theorem risk_score_zero_confidence :
  Risk.calculateRiskScore Sample.zero_confidence = 6
  /\ Risk.spec_score (static Sample.zero_confidence ++ ai Sample.zero_confidence) = 0.
Proof. split; reflexivity. Qed.

(** C6: raising the severity of one finding along
    info < low < medium < high < critical, everything else unchanged,
    does not lower the risk score (the finding's confidence, when
    present, being non-negative as the data model has it). *)
Theorem risk_score_monotone_in_severity
    (report : ScanReport) (i : nat) (f : Finding) (s' : string) :
  (static report ++ ai report) !! i = Some f ->
  Risk.severity_le (severity f) s' = true ->
  (forall c, confidence f = Some c -> (0 <= c)%Q) ->
  Risk.calculateRiskScore report
  <= Risk.calculateRiskScore (Risk.raise_severity report i s').
Proof.
  intros Hi Hle Hc.
  assert (Hall : static (Risk.raise_severity report i s') ++ ai (Risk.raise_severity report i s')
                 = alter (set_severity s') i (static report ++ ai report)).
  { unfold Risk.raise_severity.
    destruct (Nat.ltb_spec i (List.length (static report))) as [Hlt|Hge]; simpl.
    - symmetry. apply alter_app_l. exact Hlt.
    - symmetry. apply alter_app_r_alt. exact Hge. }
  unfold Risk.calculateRiskScore. rewrite Hall.
  apply Z.min_le_compat_r, Math_round_monotone.
  apply accumulate_monotone; [|apply Qle_refl].
  apply alter_related with (x := f); [intros; apply Qle_refl | exact Hi |].
  apply contribution_raise; assumption.
Qed.

Lemma risk_score_monotone_in_severity_witness :
  Risk.calculateRiskScore Sample.two_findings
  <= Risk.calculateRiskScore (Risk.raise_severity Sample.two_findings 0 "critical").
Proof.
  apply (risk_score_monotone_in_severity Sample.two_findings 0
           (Sample.finding "high" "Reentrancy" (Some (1 # 2)%Q)) "critical").
  - reflexivity.
  - reflexivity.
  - intros c [= <-]. discriminate.
Defined.

(** ** The history ledger *)

Lemma default_Some {A} (d x : A) : default d (Some x) = x.
Proof. reflexivity. Qed.

Lemma firstn_app_firstn {A} (n m : nat) (xs l : list A) :
  (n <= List.length xs + m)%nat ->
  firstn n (xs ++ firstn m l) = firstn n (xs ++ l).
Proof.
  revert n. induction xs as [|x xs IH]; intros n Hn; simpl in *.
  - rewrite firstn_firstn. f_equal. lia.
  - destruct n as [|n]; [reflexivity|]. simpl. f_equal. apply IH. lia.
Qed.

Lemma append_is_firstn (e : History.Entry) (h : list History.Entry) :
  History.append e h = firstn 100 (e :: h).
Proof.
  unfold History.append, Js.slice_to.
  destruct (Nat.ltb_spec 100 (List.length (e :: h))) as [_|Hle]; [reflexivity|].
  symmetry. apply firstn_all2. exact Hle.
Qed.

Lemma save_all_ledger (calls : list (ScanReport * bool)) (w : Scan.World) :
  Scan.ledger (Scan.save_all calls w)
  = Scan.ledger_after (Scan.appended calls) (Scan.ledger w).
Proof.
  revert w. induction calls as [|[report written] calls IH]; intros w; [reflexivity|].
  unfold Scan.save_all in *. simpl fold_left. rewrite IH. clear IH.
  unfold Scan.appended. simpl List.filter.
  destruct written; [|reflexivity].
  cbn [map rev fst]. unfold Scan.saveToHistory. cbn [Scan.ledger].
  rewrite append_is_firstn. unfold Scan.ledger_after.
  generalize (rev (map (fun call : ScanReport * bool => Scan.historyEntry (fst call))
                     (List.filter snd calls))).
  generalize (Scan.historyEntry report).
  generalize (default [] (Scan.ledger w)).
  intros h e new.
  destruct new as [|x new]; [reflexivity|].
  change (Some (firstn 100 ((x :: new) ++ firstn 100 (e :: h)))
          = Some (firstn 100 (((x :: new) ++ [e]) ++ h))).
  rewrite firstn_app_firstn by (simpl; lia).
  rewrite <- app_assoc. reflexivity.
Qed.

(** C4: after any run of appends the ledger file holds the 100 most
    recent entries in append order, newest first, the entries the file
    held before counting as the oldest; so it never grows beyond 100
    entries, and from an absent file it holds the last 100 entries
    appended.  A call whose write fails appends nothing. *)
Theorem ledger_keeps_latest_100 (calls : list (ScanReport * bool)) (w : Scan.World) :
  let before := Scan.ledger w in
  let after := Scan.ledger (Scan.save_all calls w) in
  after = Scan.ledger_after (Scan.appended calls) before
  /\ (List.length (default [] after)
      <= Nat.max 100 (List.length (default [] before)))%nat
  /\ (before = None ->
      (List.length (default [] after) <= 100)%nat
      /\ default [] after = firstn 100 (Scan.appended calls)).
Proof.
  cbv zeta. rewrite save_all_ledger.
  split; [reflexivity|].
  assert (Hlen : forall b,
    (List.length (default [] (Scan.ledger_after (Scan.appended calls) b))
     <= Nat.max 100 (List.length (default [] b)))%nat).
  { intros b. unfold Scan.ledger_after.
    destruct (Scan.appended calls) as [|x new]; [lia|].
    rewrite default_Some, length_firstn. lia. }
  split; [apply Hlen|].
  intros ->.
  split; [specialize (Hlen None); simpl in Hlen; lia|].
  unfold Scan.ledger_after.
  destruct (Scan.appended calls) as [|x new]; [reflexivity|].
  rewrite default_Some. change (default [] None) with (@nil History.Entry).
  rewrite app_nil_r. reflexivity.
Qed.

Lemma ledger_keeps_latest_100_witness :
  let calls := repeat (Sample.two_findings, true) 101 ++ [(Sample.zero_confidence, false)] in
  let after := Scan.ledger (Scan.save_all calls Sample.fresh) in
  (List.length (default [] after) <= 100)%nat
  /\ default [] after = firstn 100 (Scan.appended calls).
Proof.
  cbv zeta.
  pose proof (ledger_keeps_latest_100
                (repeat (Sample.two_findings, true) 101 ++ [(Sample.zero_confidence, false)])
                Sample.fresh) as H.
  cbv zeta in H. destruct H as (_ & _ & H).
  exact (H eq_refl).
Defined.

(** ** The scan route: what a request leaves behind *)

Lemma updateScanStatus_frame (written : bool) (scanId status message : string)
    (w : Scan.World) :
  let w' := Scan.updateScanStatus written scanId status message w in
  Scan.ledger w' = Scan.ledger w /\ Scan.cache w' = Scan.cache w
  /\ Scan.issued w' = Scan.issued w /\ Scan.now w' = Scan.now w.
Proof. destruct written; repeat split. Qed.

Lemma pipeline_frame (env : Scan.Env) (scanId contractPath : string) (includeAI : bool)
    (severity : string) (tools : list string) (pipeline : string) (w : Scan.World) :
  let w' := snd (Scan.executeScanPipeline env scanId contractPath includeAI severity
                   tools pipeline w) in
  Scan.ledger w' = Scan.ledger w /\ Scan.cache w' = Scan.cache w
  /\ Scan.issued w' = Scan.issued w.
Proof.
  unfold Scan.executeScanPipeline, Scan.runStaticAnalysis, Scan.runAIAnalysis.
  destruct (Scan.outcome (Scan.static_run env)) as [msg|st]; cbn [snd].
  - destruct (Scan.disk_ok env Scan.AtStatic); repeat split.
  - destruct includeAI.
    + destruct (Scan.outcome (Scan.ai_run env));
        destruct (Scan.disk_ok env Scan.AtStatic), (Scan.disk_ok env Scan.AtAI),
          (Scan.disk_ok env Scan.AtProcessing); repeat split.
    + destruct (Scan.disk_ok env Scan.AtStatic), (Scan.disk_ok env Scan.AtProcessing);
        repeat split.
Qed.

(** What the pipeline returns when it succeeds: the findings are the
    arrays of the command-line documents, as they are. *)
Lemma pipeline_findings (env : Scan.Env) (scanId contractPath : string) (includeAI : bool)
    (severity : string) (tools : list string) (pipeline : string) (w : Scan.World)
    (report : ScanReport) :
  fst (Scan.executeScanPipeline env scanId contractPath includeAI severity tools
         pipeline w) = inr report ->
  id report = scanId
  /\ (exists cliStatic, Scan.outcome (Scan.static_run env) = inr cliStatic
                        /\ static report = default [] cliStatic)
  /\ ai report = (if includeAI then
                    match Scan.outcome (Scan.ai_run env) with
                    | inl _ => []
                    | inr cliAi => default [] cliAi
                    end
                  else []).
Proof.
  unfold Scan.executeScanPipeline, Scan.runStaticAnalysis, Scan.runAIAnalysis.
  destruct (Scan.outcome (Scan.static_run env)) as [msg|st]; cbn [fst]; [discriminate|].
  destruct includeAI.
  - destruct (Scan.outcome (Scan.ai_run env)); intros [= <-];
      (split; [reflexivity|split; [eexists; split; reflexivity|reflexivity]]).
  - intros [= <-]. split; [reflexivity|split; [eexists; split; reflexivity|reflexivity]].
Qed.

Lemma POST_cases (env : Scan.Env) (w : Scan.World) : post_case env w (Scan.POST env w).
Proof.
  unfold Scan.POST.
  destruct (Scan.body env) as [message|request] eqn:Hbody.
  - apply post_bad_body. exact Hbody.
  - destruct (Scan.contractPath request) as [contractPath|] eqn:Hpath;
      [|eapply post_missing_path; eauto].
    destruct contractPath as [|c rest]; [eapply post_missing_path; eauto|].
    set (contractPath := String c rest) in *.
    assert (Hne : contractPath <> "") by discriminate.
    destruct (Validation.isValid _) eqn:Hvalid; cbn [negb].
    + set (w0 := Scan.updateScanStatus _ _ _ _ _).
      pose proof (updateScanStatus_frame (Scan.disk_ok env Scan.AtInitializing) (Scan.uuid env)
                    "running" "Initializing scan pipeline..." (Scan.issue (Scan.uuid env) w))
        as (Hl0 & Hc0 & _ & Hn0).
      fold w0 in Hl0, Hc0, Hn0. cbv zeta in Hl0, Hc0, Hn0.
      unfold Scan.issue in Hl0, Hc0, Hn0.
      cbn [Scan.ledger Scan.cache Scan.now] in Hl0, Hc0, Hn0.
      match goal with
      | |- context [Scan.executeScanPipeline ?e ?i ?p ?a ?s ?t ?pl ?w'] =>
          pose proof (pipeline_frame e i p a s t pl w') as (Hl1 & Hc1 & _);
          pose proof (pipeline_findings e i p a s t pl w') as Hf;
          destruct (Scan.executeScanPipeline e i p a s t pl w') as [[message|report0] w1]
      end; cbn [fst snd] in *.
      * eapply post_pipeline_failed; eauto; congruence.
      * destruct (Hf report0 eq_refl) as (Hid & Hst & Hai).
        change (Scan.now (Scan.issue (Scan.uuid env) w)) with (Scan.now w).
        eapply post_completed; eauto; congruence.
    + eapply post_invalid_path; eauto.
Qed.

(** C10: a ledger entry is appended only by a request that succeeds, and
    the entry appended carries the status [completed] and the id of the
    scan; a request that ends in an error leaves the ledger and the cache
    as they were, so that the history view and the analytics do not
    change. *)
Theorem history_entry_only_on_success (env : Scan.Env) (w : Scan.World) :
  let '(response, w') := Scan.POST env w in
  match response with
  | Scan.Ok report =>
      Scan.ledger w'
      = (if Scan.disk_ok env Scan.AtHistory
         then Some (History.append (Scan.historyEntry report) (default [] (Scan.ledger w)))
         else Scan.ledger w)
      /\ History.status (Scan.historyEntry report) = "completed"
      /\ History.id (Scan.historyEntry report) = Scan.uuid env
  | Scan.Error _ _ _ _ =>
      Scan.ledger w' = Scan.ledger w
      /\ History.GET (Scan.ledger w') = History.GET (Scan.ledger w)
      /\ Analytics.GET (Scan.ledger w') (Scan.cache w')
         = Analytics.GET (Scan.ledger w) (Scan.cache w)
  end.
Proof.
  assert (Hviews : forall w' : Scan.World,
            Scan.ledger w' = Scan.ledger w -> Scan.cache w' = Scan.cache w ->
            Scan.ledger w' = Scan.ledger w
            /\ History.GET (Scan.ledger w') = History.GET (Scan.ledger w)
            /\ Analytics.GET (Scan.ledger w') (Scan.cache w')
               = Analytics.GET (Scan.ledger w) (Scan.cache w)).
  { intros w' -> ->. repeat split. }
  destruct (POST_cases env w) as
    [message Hbody | request Hbody Hpath | request contractPath Hbody Hpath Hne v Hv
    | request contractPath message w1 Hbody Hpath Hne Hv Hl Hc
    | request contractPath report0 w1 Hbody Hpath Hne Hv Hl Hc Hid Hst Hai report1 m report].
  - unfold Scan.on_error. apply Hviews;
      destruct (Scan.disk_ok env Scan.AtFailed); reflexivity.
  - apply Hviews; reflexivity.
  - apply Hviews; reflexivity.
  - unfold Scan.on_error. apply Hviews;
      destruct (Scan.disk_ok env Scan.AtFailed); assumption.
  - split; [|split; [reflexivity | exact Hid]].
    unfold Scan.updateScanStatus, Scan.cacheReport, Scan.saveToHistory.
    destruct (Scan.disk_ok env Scan.AtCompleted), (Scan.disk_ok env Scan.AtCache),
      (Scan.disk_ok env Scan.AtHistory); cbn [Scan.ledger]; rewrite ?Hl; reflexivity.
Qed.

(** The scenarios of the specification: a static pass that fails ends in
    the status [failed] and leaves no ledger entry; an AI pass that fails
    leaves the scan to complete with no AI findings. *)
Example scenario_static_failure :
  let '(response, w') := Scan.POST (Sample.env_static_fails Sample.disk_fine) Sample.fresh in
  response
  = Scan.Error 500
      (Some "Pipeline execution failed: Static analysis failed: Command failed: spoon-audit scan")
      "SCAN_FAILED" (Some "3f2a")
  /\ Status.status <$> (Scan.statuses w' !! "3f2a") = Some "failed"
  /\ Scan.ledger w' = None.
Proof. vm_compute. repeat split. Qed.

Example scenario_ai_failure :
  let '(response, w') := Scan.POST Sample.env_ai_fails Sample.fresh in
  (exists report,
     response = Scan.Ok report /\ ai report = []
     /\ total_findings (metadata report) = 1 /\ risk_score (metadata report) = 6)
  /\ Status.status <$> (Scan.statuses w' !! "3f2a") = Some "completed".
Proof. vm_compute. split; [eexists; repeat split | reflexivity]. Qed.

(** C3, as the code has it: a request that ends in the error response of
    the [catch] block has written the status [failed] with the message of
    the error, provided the write of that record reached the disk. *)
Theorem failure_marks_status_failed (env : Scan.Env) (w : Scan.World)
    (error : option string) (code : string) (scanId : option string) :
  Scan.disk_ok env Scan.AtFailed = true ->
  fst (Scan.POST env w) = Scan.Error 500 error code scanId ->
  exists message,
    scanId = Some (Scan.uuid env)
    /\ error = Some (Js.or_str (Some message) "Internal server error")
    /\ Scan.statuses (snd (Scan.POST env w)) !! Scan.uuid env
       = Some (Status.mk (Scan.uuid env) "failed" message
                 (Scan.now (snd (Scan.POST env w)))).
Proof.
  intros Hdisk.
  destruct (POST_cases env w) as
    [message Hbody | request Hbody Hpath | request contractPath Hbody Hpath Hne v Hv
    | request contractPath message w1 Hbody Hpath Hne Hv Hl Hc
    | request contractPath report0 w1 Hbody Hpath Hne Hv Hl Hc Hid Hst Hai report1 m report];
    cbn [fst snd]; try discriminate.
  - unfold Scan.on_error, Scan.updateScanStatus. rewrite Hdisk. cbn [fst snd].
    intros [= <- <- <-]. exists message.
    split; [reflexivity|split; [reflexivity|]].
    cbn [Scan.statuses Scan.now]. apply lookup_insert_eq.
  - unfold Scan.on_error, Scan.updateScanStatus. rewrite Hdisk. cbn [fst snd].
    intros [= <- <- <-]. exists message.
    split; [reflexivity|split; [reflexivity|]].
    cbn [Scan.statuses Scan.now]. apply lookup_insert_eq.
Qed.

Lemma failure_marks_status_failed_witness :
  exists message,
    Some "3f2a" = Some "3f2a"
    /\ Some "Pipeline execution failed: Static analysis failed: Command failed: spoon-audit scan"
       = Some (Js.or_str (Some message) "Internal server error")
    /\ Scan.statuses (snd (Scan.POST (Sample.env_static_fails Sample.disk_fine) Sample.fresh))
         !! "3f2a"
       = Some (Status.mk "3f2a" "failed" message
                 (Scan.now (snd (Scan.POST (Sample.env_static_fails Sample.disk_fine)
                                   Sample.fresh)))).
Proof.
  apply (failure_marks_status_failed (Sample.env_static_fails Sample.disk_fine) Sample.fresh
           (Some "Pipeline execution failed: Static analysis failed: Command failed: spoon-audit scan")
           "SCAN_FAILED" (Some "3f2a")).
  - reflexivity.
  - vm_compute. reflexivity.
Defined.

(** C3 as stated fails when the disk refuses the last write: the error
    goes back to the caller and the record still says [running]. *)
Lemma failed_status_write_can_be_lost :
  let '(response, w') :=
    Scan.POST (Sample.env_static_fails Sample.disk_fails_late) Sample.fresh in
  response
  = Scan.Error 500
      (Some "Pipeline execution failed: Static analysis failed: Command failed: spoon-audit scan")
      "SCAN_FAILED" (Some "3f2a")
  /\ Status.status <$> (Scan.statuses w' !! "3f2a") = Some "running".
Proof. vm_compute. split; reflexivity. Qed.

(** ** Path validation *)

Lemma prefix_app (a b : string) : String.prefix a (a ++ b) = true.
Proof.
  induction a as [|c a IH]; simpl; [destruct b; reflexivity|].
  destruct (ascii_dec c c) as [_|Hne]; [exact IH | destruct (Hne eq_refl)].
Qed.


Lemma includes_prefix (s sub : string) :
  String.prefix sub s = true -> Js.includes s sub = true.
Proof. intros H. destruct s; simpl in *; rewrite H; reflexivity. Qed.


(** A path is only accepted when its resolved form contains the working
    directory. *)
Lemma valid_path_contains_root (cwd : string) (stat : string -> option FsNode)
    (contractPath : string) :
  Validation.isValid (Validation.validateContractPath cwd stat contractPath) = true ->
  Js.includes (Path.resolve cwd contractPath) cwd = true.
Proof.
  unfold Validation.validateContractPath.
  destruct (Js.includes (Path.resolve cwd contractPath) cwd); [reflexivity | discriminate].
Qed.




(** ** Severities outside the canonical five *)





(** * The analytics route *)

(** ** Lists met in first-seen order *)

Lemma existsb_eqb_In (k : string) (ks : list string) :
  existsb (String.eqb k) ks = true <-> In k ks.
Proof.
  rewrite existsb_exists. split.
  - intros (x & Hx & ->%String.eqb_eq). exact Hx.
  - intros H. exists k. split; [exact H | apply String.eqb_refl].
Qed.

Lemma first_seen_snoc (l : list string) (k : string) :
  Analytics.first_seen (l ++ [k])
  = if existsb (String.eqb k) (Analytics.first_seen l)
    then Analytics.first_seen l else Analytics.first_seen l ++ [k].
Proof. unfold Analytics.first_seen. rewrite fold_left_app. reflexivity. Qed.

Lemma first_seen_In (l : list string) (k : string) :
  In k (Analytics.first_seen l) <-> In k l.
Proof.
  induction l as [|x l IH] using rev_ind; [reflexivity|].
  rewrite first_seen_snoc, in_app_iff.
  destruct (existsb (String.eqb x) (Analytics.first_seen l)) eqn:E.
  - apply existsb_eqb_In in E. simpl. split; [tauto|].
    intros [H|[<-|[]]]; [tauto | exact E].
  - rewrite in_app_iff. tauto.
Qed.

Lemma first_seen_NoDup (l : list string) : List.NoDup (Analytics.first_seen l).
Proof.
  induction l as [|x l IH] using rev_ind; [constructor|].
  rewrite first_seen_snoc.
  destruct (existsb (String.eqb x) (Analytics.first_seen l)) eqn:E; [exact IH|].
  apply List.NoDup_app; [exact IH | repeat constructor; intros [] |].
  intros y Hy [<-|[]]. apply existsb_eqb_In in Hy. congruence.
Qed.


(** ** Objects used as dictionaries *)

Lemma upsert_map {V} (g : string -> V) (ks : list string) (k0 : string)
    (init : V) (f : V -> V) :
  List.NoDup ks ->
  Js.upsert (map (fun k => (k, g k)) ks) k0 init f
  = if existsb (String.eqb k0) ks
    then map (fun k => (k, if String.eqb k0 k then f (g k) else g k)) ks
    else map (fun k => (k, g k)) ks ++ [(k0, f init)].
Proof.
  induction 1 as [|k ks Hk Hnd IH]; [reflexivity|].
  cbn [map Js.upsert existsb]. rewrite (String.eqb_sym k0 k).
  destruct (String.eqb_spec k k0) as [->|Hne]; cbn [orb].
  - f_equal. apply map_ext_in. intros k Hin.
    destruct (String.eqb_spec k0 k) as [->|_]; [contradiction | reflexivity].
  - rewrite IH. destruct (existsb (String.eqb k0) ks); reflexivity.
Qed.

Lemma filter_none {A} (f : A -> bool) (l : list A) :
  (forall a, In a l -> f a = false) -> List.filter f l = [].
Proof.
  induction l as [|a l IH]; intros H; [reflexivity|].
  cbn [List.filter]. rewrite (H a (or_introl eq_refl)). apply IH.
  intros b Hb. apply H. right. exact Hb.
Qed.

Section Grouping.
Context {A V : Type} (key : A -> string) (init : string -> V) (step : A -> V -> V).

Lemma folded_snoc (k : string) (l : list A) (a : A) :
  Analytics.folded key init step k (l ++ [a])
  = if String.eqb (key a) k then step a (Analytics.folded key init step k l)
    else Analytics.folded key init step k l.
Proof.
  unfold Analytics.folded. rewrite List.filter_app. cbn [List.filter].
  destruct (String.eqb (key a) k); [|rewrite app_nil_r; reflexivity].
  rewrite fold_left_app. reflexivity.
Qed.

Lemma grouping_closed_form (l : list A) :
  fold_left (fun o a => Js.upsert o (key a) (init (key a)) (step a)) l []
  = map (fun k => (k, Analytics.folded key init step k l)) (Analytics.first_seen (map key l)).
Proof.
  induction l as [|a l IH] using rev_ind; [reflexivity|].
  rewrite fold_left_app. cbn [fold_left]. rewrite IH.
  rewrite upsert_map by apply first_seen_NoDup.
  rewrite map_app. cbn [map]. rewrite first_seen_snoc.
  destruct (existsb (String.eqb (key a)) (Analytics.first_seen (map key l))) eqn:E.
  - apply map_ext. intros k. rewrite folded_snoc. reflexivity.
  - rewrite map_app. cbn [map]. f_equal.
    + apply map_ext_in. intros k Hk. rewrite folded_snoc.
      destruct (String.eqb_spec (key a) k) as [<-|_]; [|reflexivity].
      apply existsb_eqb_In in Hk. congruence.
    + rewrite folded_snoc, String.eqb_refl. do 3 f_equal.
      unfold Analytics.folded. rewrite filter_none; [reflexivity|].
      intros b Hb. apply String.eqb_neq. intros Heq.
      assert (Hin : In (key a) (Analytics.first_seen (map key l))).
      { apply first_seen_In. rewrite <- Heq. apply in_map. exact Hb. }
      apply existsb_eqb_In in Hin. congruence.
Qed.
End Grouping.

(** ** The stable sort *)

Lemma sort_insert_perm {A} (cmp : A -> A -> Z) (x : A) (l : list A) :
  Permutation (Js.sort_insert cmp x l) (x :: l).
Proof.
  induction l as [|y l IH]; simpl; [reflexivity|].
  destruct (cmp x y <=? 0); [reflexivity|].
  rewrite IH. apply perm_swap.
Qed.

Lemma sort_perm {A} (cmp : A -> A -> Z) (l : list A) : Permutation (Js.sort cmp l) l.
Proof.
  induction l as [|x l IH]; simpl; [reflexivity|].
  rewrite sort_insert_perm. constructor. exact IH.
Qed.





(** ** Slices of a sorted list *)


Lemma slice_last_split {A} (n : nat) (l : list A) :
  l = firstn (List.length l - n) l ++ Js.slice_last n l
  /\ (List.length (Js.slice_last n l) <= n)%nat
  /\ (firstn (List.length l - n) l <> [] -> List.length (Js.slice_last n l) = n).
Proof.
  unfold Js.slice_last. split; [symmetry; apply firstn_skipn|].
  rewrite List.length_skipn. split; [lia|].
  intros H. destruct (Nat.le_gt_cases (List.length l) n) as [Hle|Hgt]; [|lia].
  destruct H. replace (List.length l - n)%nat with 0%nat by lia. reflexivity.
Qed.


(** ** Scan trends *)

Lemma fold_add_shift (l : list Z) (a : Z) :
  fold_left (fun a b => a + b) l a = a + Analytics.sum l.
Proof.
  unfold Analytics.sum. revert a.
  induction l as [|x l IH]; intros a; simpl; [lia|].
  rewrite (IH (a + x)), (IH (0 + x)). lia.
Qed.

Lemma sum_cons (x : Z) (l : list Z) : Analytics.sum (x :: l) = x + Analytics.sum l.
Proof. unfold Analytics.sum at 1. simpl. apply fold_add_shift. Qed.

Lemma bucket_fold (scans : list History.Entry) (d : string) (n f : Z) (rs : list Z) :
  fold_left (fun t scan => Analytics.bucket_step scan t) scans (Analytics.Bucket.mk d n f rs)
  = Analytics.Bucket.mk d (n + Z.of_nat (List.length scans))
      (f + Analytics.sum (map History.findings_count scans))
      (rs ++ map History.risk_score scans).
Proof.
  revert n f rs. induction scans as [|scan scans IH]; intros n f rs.
  - simpl. rewrite app_nil_r. f_equal; unfold Analytics.sum; simpl; lia.
  - cbn [fold_left]. unfold Analytics.bucket_step at 2. cbn [Analytics.Bucket.date
      Analytics.Bucket.scans Analytics.Bucket.findings Analytics.Bucket.riskScores].
    rewrite IH. cbn [map List.length]. rewrite sum_cons, <- app_assoc. f_equal; lia.
Qed.

Lemma trends_closed_form (history : list History.Entry) :
  fold_left Analytics.add_scan history []
  = map (fun d => (d, Analytics.folded Analytics.scan_date Analytics.bucket_init Analytics.bucket_step d history))
      (Analytics.first_seen (map Analytics.scan_date history)).
Proof. apply (grouping_closed_form Analytics.scan_date Analytics.bucket_init Analytics.bucket_step). Qed.

Lemma on_date_nonempty (d : string) (history : list History.Entry) :
  In d (map Analytics.scan_date history) -> Analytics.on_date d history <> [].
Proof.
  intros (scan & <- & Hin)%in_map_iff Hnil.
  assert (H : In scan (Analytics.on_date (Analytics.scan_date scan) history)).
  { apply filter_In. split; [exact Hin | apply String.eqb_refl]. }
  rewrite Hnil in H. destruct H.
Qed.

Lemma trend_of_folded (d : string) (history : list History.Entry) :
  In d (map Analytics.scan_date history) ->
  Analytics.trend_of (Analytics.folded Analytics.scan_date Analytics.bucket_init Analytics.bucket_step d history)
  = Analytics.spec_trend d history.
Proof.
  intros Hd. apply on_date_nonempty in Hd.
  unfold Analytics.folded, Analytics.bucket_init. rewrite bucket_fold.
  unfold Analytics.spec_trend. fold (Analytics.on_date d history).
  destruct (Analytics.on_date d history) as [|scan scans]; [destruct (Hd eq_refl)|].
  unfold Analytics.trend_of.
  cbn [Analytics.Bucket.date Analytics.Bucket.scans Analytics.Bucket.findings
       Analytics.Bucket.riskScores app].
  rewrite length_map. cbn [List.length Nat.ltb Nat.leb]. reflexivity.
Qed.

Lemma compare_refl (a : string) : String.compare a a = Eq.
Proof. apply OrderedTypeEx.String_as_OT.cmp_eq. reflexivity. Qed.



Lemma date_lt_irrefl (a : string) : ~ Analytics.date_lt a a.
Proof.
  unfold Analytics.date_lt. rewrite compare_refl. discriminate.
Qed.




Lemma scan_trends_sorted_form (history : list History.Entry) :
  Analytics.calculateScanTrends history
  = Js.slice_last 30
      (Js.sort (fun a b => Js.localeCompare (Analytics.date a) (Analytics.date b))
         (map (fun d => Analytics.spec_trend d history)
            (Analytics.first_seen (map Analytics.scan_date history)))).
Proof.
  unfold Analytics.calculateScanTrends. rewrite trends_closed_form, !map_map.
  do 2 f_equal. apply map_ext_in. intros d Hd. cbn [snd].
  apply trend_of_folded, first_seen_In, Hd.
Qed.


(** ** Detailed analytics *)

Lemma fold_findings (fs : list Finding) (acc : Analytics.Acc) :
  fold_left Analytics.add_finding fs acc
  = Analytics.mkAcc
      (fold_left Analytics.severity_step fs (Analytics.acc_severityDistribution acc))
      (fold_left Analytics.vulnerability_step fs (Analytics.acc_vulnerabilities acc))
      (Analytics.acc_reads acc).
Proof.
  revert acc. induction fs as [|f fs IH]; intros acc; [destruct acc; reflexivity|].
  cbn [fold_left]. rewrite IH. reflexivity.
Qed.

Lemma fold_reports (cache : gmap string ScanReport) (scans : list History.Entry)
    (acc : Analytics.Acc) :
  fold_left (Analytics.add_report cache) scans acc
  = Analytics.mkAcc
      (fold_left Analytics.severity_step (Analytics.findings_of cache scans)
         (Analytics.acc_severityDistribution acc))
      (fold_left Analytics.vulnerability_step (Analytics.findings_of cache scans)
         (Analytics.acc_vulnerabilities acc))
      (Analytics.acc_reads acc ++ map History.id scans).
Proof.
  revert acc. induction scans as [|scan scans IH]; intros acc.
  - simpl. rewrite app_nil_r. destruct acc; reflexivity.
  - cbn [fold_left]. rewrite IH. unfold Analytics.findings_of. cbn [flat_map map].
    unfold Analytics.add_report.
    destruct (cache !! History.id scan) as [report|].
    + rewrite fold_findings. cbn [Analytics.acc_severityDistribution
        Analytics.acc_vulnerabilities Analytics.acc_reads].
      rewrite !fold_left_app, <- app_assoc. reflexivity.
    + cbn [Analytics.acc_severityDistribution Analytics.acc_vulnerabilities
        Analytics.acc_reads app]. rewrite <- app_assoc. reflexivity.
Qed.

Lemma findings_of_readable (cache : gmap string ScanReport) (scans : list History.Entry) :
  Analytics.findings_of cache (List.filter (Analytics.readable cache) scans) = Analytics.findings_of cache scans.
Proof.
  induction scans as [|scan scans IH]; [reflexivity|].
  unfold Analytics.findings_of, Analytics.readable in *. cbn [List.filter flat_map].
  destruct (cache !! History.id scan) as [report|] eqn:E; cbn [flat_map].
  - rewrite E, IH. reflexivity.
  - exact IH.
Qed.

Lemma detailed_closed_form (cache : gmap string ScanReport) (history : list History.Entry) :
  Analytics.calculateDetailedAnalytics cache history
  = (map History.id (firstn 50 history),
     Analytics.mkDetailed
       (fold_left Analytics.severity_step (Analytics.findings_of cache (firstn 50 history)) [])
       (Js.slice_to 10
          (Js.sort (fun a b => Analytics.Vulnerability.count b - Analytics.Vulnerability.count a)
             (map Analytics.vulnerability_of
                (fold_left Analytics.vulnerability_step (Analytics.findings_of cache (firstn 50 history)) []))))).
Proof.
  unfold Analytics.calculateDetailedAnalytics.
  change (Js.slice_to 50 history) with (firstn 50 history).
  rewrite fold_reports.
  cbn [Analytics.acc_severityDistribution Analytics.acc_vulnerabilities
       Analytics.acc_reads app].
  reflexivity.
Qed.

Lemma findings_of_ext (cache cache' : gmap string ScanReport)
    (scans : list History.Entry) :
  (forall scan, In scan scans -> cache' !! History.id scan = cache !! History.id scan) ->
  Analytics.findings_of cache' scans = Analytics.findings_of cache scans.
Proof.
  unfold Analytics.findings_of.
  induction scans as [|scan scans IH]; intros H; [reflexivity|].
  cbn [flat_map]. rewrite (H scan (or_introl eq_refl)), IH; [reflexivity|].
  intros scan' Hscan'. apply H. right. exact Hscan'.
Qed.

(** C9: the detailed analytics open the cache files of the first 50
    ledger entries, the most recent ones, and of no other: the entries
    beyond them and the rest of the cache do not matter.  An entry whose
    cache file cannot be read is passed over, the result being that of
    the readable entries alone. *)
Theorem detailed_analytics_window (cache : gmap string ScanReport)
    (history : list History.Entry) :
  let '(reads, result) := Analytics.calculateDetailedAnalytics cache history in
  reads = map History.id (firstn 50 history)
  /\ (List.length reads <= 50)%nat
  /\ Analytics.calculateDetailedAnalytics cache (firstn 50 history) = (reads, result)
  /\ (forall cache' : gmap string ScanReport,
        (forall scan, In scan (firstn 50 history) ->
                      cache' !! History.id scan = cache !! History.id scan) ->
        Analytics.calculateDetailedAnalytics cache' history = (reads, result))
  /\ snd (Analytics.calculateDetailedAnalytics cache
            (List.filter (Analytics.readable cache) (firstn 50 history))) = result.
Proof.
  rewrite !detailed_closed_form.
  split; [reflexivity|]. split; [rewrite length_map, List.length_firstn; lia|].
  split; [rewrite firstn_firstn, Nat.min_id; reflexivity|].
  split.
  - intros cache' Hsame. rewrite detailed_closed_form.
    rewrite (findings_of_ext cache cache' _ Hsame). reflexivity.
  - cbn [snd].
    assert (Hall : firstn 50 (List.filter (Analytics.readable cache) (firstn 50 history))
                   = List.filter (Analytics.readable cache) (firstn 50 history)).
    { apply firstn_all2. etransitivity; [apply List.filter_length_le|].
      rewrite List.length_firstn. lia. }
    rewrite Hall, findings_of_readable. reflexivity.
Qed.

Example detailed_analytics_sample :
  fst (Analytics.calculateDetailedAnalytics Sample.cache Sample.history)
  = ["scan-3"; "scan-2"; "scan-1"]
  /\ Analytics.severityDistribution
       (snd (Analytics.calculateDetailedAnalytics Sample.cache Sample.history))
     = [("high", 1); ("low", 1); ("medium", 1)].
Proof. vm_compute. split; reflexivity. Qed.

(** ** The most common severity *)




(** ** Vulnerability clusters *)









Example top_vulnerabilities_sample :
  Analytics.topVulnerabilities
    (snd (Analytics.calculateDetailedAnalytics Sample.cache Sample.history))
  = [Analytics.Vulnerability.mk "Re Entrancy" 2 "high";
     Analytics.Vulnerability.mk "Use Of Tx Origin" 1 "medium"].
Proof. vm_compute. reflexivity. Qed.

Example scan_trends_sample :
  Analytics.calculateScanTrends Sample.history
  = [Analytics.mkTrend "2025-08-04" 1 0 0; Analytics.mkTrend "2025-08-06" 2 4 9].
Proof. vm_compute. reflexivity. Qed.

(** * Further properties of the scan route *)

(** X1: the result of the path validation is well formed: a valid result
    carries the resolved path and no error, that path contains the
    working directory and is a file ending in [.sol] or a readable
    directory with a [.sol] entry; an invalid result carries no path and
    one of the five messages. *)
Theorem validation_result_shape (cwd : string) (stat : string -> option FsNode)
    (contractPath : string) :
  let r := Validation.validateContractPath cwd stat contractPath in
  let resolved := Path.resolve cwd contractPath in
  if Validation.isValid r then
    Validation.path r = Some resolved /\ Validation.error r = None
    /\ Js.includes resolved cwd = true
    /\ ((stat resolved = Some FsFile /\ Js.endsWith resolved ".sol" = true)
        \/ exists files f,
             stat resolved = Some (FsDirectory (Some files))
             /\ In f files /\ Js.endsWith f ".sol" = true)
  else
    Validation.path r = None
    /\ exists msg,
         Validation.error r = Some msg
         /\ In msg ["Invalid file path - outside project directory";
                    "File or directory not found";
                    "Only .sol files are supported";
                    "No .sol files found in directory";
                    "Path must be a file or directory"].
Proof.
  cbv zeta. unfold Validation.validateContractPath.
  set (resolved := Path.resolve cwd contractPath).
  destruct (Js.includes resolved cwd) eqn:Hinc; cbn [negb].
  2:{ cbn. split; [reflexivity|]. eexists; split; [reflexivity|]. cbn; tauto. }
  destruct (stat resolved) as [[|[files|]|]|] eqn:Hstat.
  - destruct (Js.endsWith resolved ".sol") eqn:Hsol; cbn [negb].
    + cbn. repeat split. left. split; reflexivity.
    + cbn. split; [reflexivity|]. eexists; split; [reflexivity|]. cbn; tauto.
  - destruct (List.filter _ files) as [|f rest] eqn:Hf.
    + cbn. split; [reflexivity|]. eexists; split; [reflexivity|]. cbn; tauto.
    + cbn. repeat split. right. exists files, f.
      assert (Hin : In f (List.filter (fun f => Js.endsWith f ".sol") files))
        by (rewrite Hf; left; reflexivity).
      apply List.filter_In in Hin. destruct Hin as [Hin Hs]. repeat split; assumption.
  - cbn. split; [reflexivity|]. eexists; split; [reflexivity|]. cbn; tauto.
  - cbn. split; [reflexivity|]. eexists; split; [reflexivity|]. cbn; tauto.
  - cbn. split; [reflexivity|]. eexists; split; [reflexivity|]. cbn; tauto.
Qed.

(** ** Status records written by a request *)

Lemma status_written_own (written : bool) (scanId status message : string) (w : Scan.World) :
  Scan.statuses (Scan.updateScanStatus written scanId status message w) !! scanId
  = if written then Some (Status.mk scanId status message (Scan.now w))
    else Scan.statuses w !! scanId.
Proof.
  destruct written; cbn; [|reflexivity].
  apply lookup_insert_eq.
Qed.

Lemma status_written_other (written : bool) (scanId status message : string)
    (w : Scan.World) (other : string) :
  other <> scanId ->
  Scan.statuses (Scan.updateScanStatus written scanId status message w) !! other
  = Scan.statuses w !! other.
Proof.
  intros Hne. destruct written; cbn; [|reflexivity].
  apply lookup_insert_ne. congruence.
Qed.

Lemma status_trace_refl (scanId : string) (allowed : list string) (m : gmap string Status.t) :
  status_trace scanId allowed m m.
Proof. split; [reflexivity | left; reflexivity]. Qed.

Lemma status_trace_trans (scanId : string) (allowed : list string)
    (m1 m2 m3 : gmap string Status.t) :
  status_trace scanId allowed m1 m2 -> status_trace scanId allowed m2 m3 ->
  status_trace scanId allowed m1 m3.
Proof.
  intros [Ho1 Hs1] [Ho2 Hs2]. split.
  - intros other Hne. rewrite Ho2, Ho1 by assumption. reflexivity.
  - destruct Hs2 as [Heq|Hst]; [rewrite Heq; exact Hs1 | right; exact Hst].
Qed.

Lemma status_trace_update (written : bool) (scanId status message : string)
    (allowed : list string) (w : Scan.World) :
  In status allowed ->
  status_trace scanId allowed (Scan.statuses w)
    (Scan.statuses (Scan.updateScanStatus written scanId status message w)).
Proof.
  intros Hin. split.
  - intros other Hne. apply status_written_other. exact Hne.
  - rewrite status_written_own. destruct written; [right|left; reflexivity].
    eexists. split; [reflexivity|]. split; [reflexivity|exact Hin].
Qed.

Lemma status_trace_weaken (scanId : string) (allowed allowed' : list string)
    (m1 m2 : gmap string Status.t) :
  (forall s, In s allowed -> In s allowed') ->
  status_trace scanId allowed m1 m2 -> status_trace scanId allowed' m1 m2.
Proof.
  intros Hsub [Ho Hs]. split; [exact Ho|].
  destruct Hs as [Heq|(st & Hst & Hid & Hin)]; [left; exact Heq|].
  right. exists st. auto.
Qed.

(** While it runs, the pipeline writes [running] records of its own scan
    only. *)
Lemma pipeline_statuses (env : Scan.Env) (scanId contractPath : string) (includeAI : bool)
    (severity : string) (tools : list string) (pipeline : string) (w : Scan.World) :
  status_trace scanId ["running"] (Scan.statuses w)
    (Scan.statuses (snd (Scan.executeScanPipeline env scanId contractPath includeAI severity
                           tools pipeline w))).
Proof.
  assert (Hstep : forall written message w1 m0,
            status_trace scanId ["running"] m0 (Scan.statuses w1) ->
            status_trace scanId ["running"] m0
              (Scan.statuses (Scan.updateScanStatus written scanId "running" message w1))).
  { intros written message w1 m0 H. eapply status_trace_trans; [exact H|].
    apply status_trace_update. left; reflexivity. }
  unfold Scan.executeScanPipeline, Scan.runStaticAnalysis, Scan.runAIAnalysis.
  destruct (Scan.outcome (Scan.static_run env)) as [msg|st]; cbn [snd].
  - change (Scan.statuses (Scan.advance ?ms ?w1)) with (Scan.statuses w1).
    apply Hstep, status_trace_refl.
  - destruct includeAI.
    + destruct (Scan.outcome (Scan.ai_run env)); cbn [snd];
        apply Hstep; change (Scan.statuses (Scan.advance ?ms ?w1)) with (Scan.statuses w1);
        apply Hstep; change (Scan.statuses (Scan.advance ?ms ?w1)) with (Scan.statuses w1);
        apply Hstep, status_trace_refl.
    + cbn [snd]. apply Hstep.
      change (Scan.statuses (Scan.advance ?ms ?w1)) with (Scan.statuses w1).
      apply Hstep, status_trace_refl.
Qed.

(** The pipeline fails exactly when the static pass does. *)
Lemma pipeline_outcome (env : Scan.Env) (scanId contractPath : string) (includeAI : bool)
    (severity : string) (tools : list string) (pipeline : string) (w : Scan.World) :
  match fst (Scan.executeScanPipeline env scanId contractPath includeAI severity tools
               pipeline w) with
  | inl _ => exists message, Scan.outcome (Scan.static_run env) = inl message
  | inr _ => exists cliStatic, Scan.outcome (Scan.static_run env) = inr cliStatic
  end.
Proof.
  unfold Scan.executeScanPipeline, Scan.runStaticAnalysis, Scan.runAIAnalysis.
  destruct (Scan.outcome (Scan.static_run env)) as [msg|st]; cbn [fst]; [eauto|].
  destruct includeAI; [destruct (Scan.outcome (Scan.ai_run env))|]; cbn [fst]; eauto.
Qed.



(** The report the pipeline returns. *)
Lemma pipeline_report (env : Scan.Env) (scanId contractPath : string) (includeAI : bool)
    (severity : string) (tools : list string) (pipeline' : string) (w : Scan.World)
    (report : ScanReport) :
  fst (Scan.executeScanPipeline env scanId contractPath includeAI severity tools
         pipeline' w) = inr report ->
  path report = contractPath /\ pipeline report = pipeline'
  /\ timestamp report = Scan.now w / 1000 /\ duration report = 0
  /\ tools_used (metadata report) = tools /\ ai_enabled (metadata report) = includeAI
  /\ total_findings (metadata report)
     = Z.of_nat (List.length (static report)) + Z.of_nat (List.length (ai report))
  /\ gas_optimization_count (metadata report) = countGasOptimizations report.
Proof.
  unfold Scan.executeScanPipeline, Scan.runStaticAnalysis, Scan.runAIAnalysis.
  destruct (Scan.outcome (Scan.static_run env)) as [msg|st]; cbn [fst]; [discriminate|].
  destruct includeAI; [destruct (Scan.outcome (Scan.ai_run env))|];
    intros [= <-]; repeat split;
    destruct (Scan.disk_ok env Scan.AtStatic); reflexivity.
Qed.

Lemma valid_path_resolved (cwd : string) (stat : string -> option FsNode)
    (contractPath : string) :
  Validation.isValid (Validation.validateContractPath cwd stat contractPath) = true ->
  Validation.path (Validation.validateContractPath cwd stat contractPath)
  = Some (Path.resolve cwd contractPath).
Proof.
  unfold Validation.validateContractPath.
  destruct (negb _); [discriminate|].
  destruct (stat _) as [[|[files|]|]|]; try discriminate.
  - destruct (negb _); [discriminate|reflexivity].
  - destruct (_ =? _)%nat; [discriminate|reflexivity].
Qed.

(** Every run of [POST], with the pipeline it starts. *)
Lemma POST_run (env : Scan.Env) (w : Scan.World) :
  let scanId := Scan.uuid env in
  let w0 := Scan.issue scanId w in
  (exists message,
     Scan.body env = inl message /\ Scan.POST env w = Scan.on_error env scanId message w0)
  \/ (exists error code,
        Scan.POST env w = (Scan.Error 400 error code None, w0)
        /\ forall request contractPath,
             Scan.body env = inr request ->
             Scan.contractPath request = Some contractPath -> contractPath <> "" ->
             Validation.isValid
               (Validation.validateContractPath (Scan.cwd env) (Scan.stat env) contractPath)
             = false)
  \/ (exists request contractPath,
        Scan.body env = inr request
        /\ Scan.contractPath request = Some contractPath /\ contractPath <> ""
        /\ Validation.isValid
             (Validation.validateContractPath (Scan.cwd env) (Scan.stat env) contractPath)
           = true
        /\ let run :=
             Scan.executeScanPipeline env scanId (Path.resolve (Scan.cwd env) contractPath)
               (default true (Scan.includeAI request))
               (default "medium" (Scan.req_severity request))
               (default ["slither"; "mythril"; "solhint"] (Scan.tools request))
               (default "thorough" (Scan.req_pipeline request))
               (Scan.updateScanStatus (Scan.disk_ok env Scan.AtInitializing) scanId "running"
                  "Initializing scan pipeline..." w0) in
           match fst run with
           | inl message => Scan.POST env w = Scan.on_error env scanId message (snd run)
           | inr report0 =>
               let report1 := with_duration report0 (Scan.now (snd run) - Scan.now w) in
               let m := metadata report1 in
               let report :=
                 with_metadata report1
                   (mkMetadata (tools_used m) (ai_enabled m) (total_findings m)
                      (Risk.calculateRiskScore report1) (gas_optimization_count m)) in
               Scan.POST env w
               = (Scan.Ok report,
                  Scan.updateScanStatus (Scan.disk_ok env Scan.AtCompleted) scanId
                    "completed" "Scan completed successfully"
                    (Scan.cacheReport (Scan.disk_ok env Scan.AtCache) scanId report
                       (Scan.saveToHistory (Scan.disk_ok env Scan.AtHistory) report
                          (snd run))))
           end).
Proof.
  cbv zeta. unfold Scan.POST.
  destruct (Scan.body env) as [message|request] eqn:Hbody.
  - left. exists message. split; reflexivity.
  - destruct (Scan.contractPath request) as [contractPath|] eqn:Hpath.
    2:{ right; left. do 2 eexists. split; [reflexivity|].
        intros request' p [= <-]. congruence. }
    destruct contractPath as [|c rest].
    { right; left. do 2 eexists. split; [reflexivity|].
      intros request' p [= <-]. rewrite Hpath. intros [= <-]. congruence. }
    set (contractPath := String c rest) in *.
    destruct (Validation.isValid _) eqn:Hvalid; cbn [negb].
    + right; right. exists request, contractPath.
      split; [reflexivity|]. split; [exact Hpath|]. split; [discriminate|].
      split; [exact Hvalid|].
      rewrite (valid_path_resolved _ _ _ Hvalid). rewrite default_Some.
      match goal with
      | |- context [Scan.executeScanPipeline ?e ?i ?p ?a ?s ?t ?pl ?w'] =>
          destruct (Scan.executeScanPipeline e i p a s t pl w') as [[message|report0] w1]
      end; cbn [fst snd]; reflexivity.
    + right; left. do 2 eexists. split; [reflexivity|].
      intros request' p [= <-]. rewrite Hpath. intros [= <-] _. exact Hvalid.
Qed.

(** X2: a scan succeeds exactly when the body parses, names a valid
    path, and the static pass succeeds. *)
Theorem scan_succeeds_iff (env : Scan.Env) (w : Scan.World) :
  (exists report, fst (Scan.POST env w) = Scan.Ok report)
  <-> exists request contractPath cliStatic,
        Scan.body env = inr request
        /\ Scan.contractPath request = Some contractPath /\ contractPath <> ""
        /\ Validation.isValid
             (Validation.validateContractPath (Scan.cwd env) (Scan.stat env) contractPath)
           = true
        /\ Scan.outcome (Scan.static_run env) = inr cliStatic.
Proof.
  destruct (POST_run env w) as
    [(message & Hbody & HP) | [(error & code & HP & Hinv) | (request & p & Hbody & Hpath & Hne & Hv & Hrun)]].
  - rewrite HP. unfold Scan.on_error. cbn [fst]. split.
    + intros [report [=]].
    + intros (request & _ & _ & Hb & _). congruence.
  - rewrite HP. cbn [fst]. split.
    + intros [report [=]].
    + intros (request & p & _ & Hb & Hp & Hne & Hv & _).
      rewrite (Hinv request p Hb Hp Hne) in Hv. discriminate.
  - cbv zeta in Hrun.
    match type of Hrun with
    | context [Scan.executeScanPipeline ?e ?i ?pp ?a ?s ?t ?pl ?w'] =>
        pose proof (pipeline_outcome e i pp a s t pl w') as Hout;
        destruct (Scan.executeScanPipeline e i pp a s t pl w') as [[message|report0] w1]
    end; cbn [fst snd] in Hrun, Hout; rewrite Hrun.
    + unfold Scan.on_error. cbn [fst]. split.
      * intros [report [=]].
      * intros (_ & _ & cli & _ & _ & _ & _ & Hcli). destruct Hout as [msg Hmsg]. congruence.
    + cbn [fst]. split.
      * intros _. destruct Hout as [cli Hcli]. exists request, p, cli. auto.
      * intros _. eexists. reflexivity.
Qed.



(** X4: a request with [includeAI: false] never runs the AI pass. *)
Theorem scan_without_ai (env : Scan.Env) (w : Scan.World) (request : Scan.ScanRequest)
    (other_run : Scan.Exec) :
  Scan.body env = inr request ->
  Scan.includeAI request = Some false ->
  Scan.POST
    (Scan.mkEnv (Scan.uuid env) (Scan.body env) (Scan.cwd env) (Scan.stat env)
       (Scan.static_run env) other_run (Scan.disk_ok env)) w
  = Scan.POST env w
  /\ forall report,
       fst (Scan.POST env w) = Scan.Ok report ->
       ai report = [] /\ ai_enabled (metadata report) = false.
Proof.
  intros Hbody Hinc. split.
  - unfold Scan.POST.
    cbn [Scan.uuid Scan.body Scan.cwd Scan.stat Scan.static_run Scan.ai_run Scan.disk_ok].
    rewrite Hbody, Hinc. cbn [default].
    destruct (Scan.contractPath request) as [[|c rest]|]; try reflexivity.
  - intros report.
    destruct (POST_run env w) as
      [(message & Hb & HP) | [(error & code & HP & Hinv) | (request' & p & Hb & Hpath & Hne & Hv & Hrun)]].
    + rewrite HP. unfold Scan.on_error. cbn [fst]. discriminate.
    + rewrite HP. cbn [fst]. discriminate.
    + assert (request' = request) as -> by congruence.
      cbv zeta in Hrun.
      match type of Hrun with
      | context [Scan.executeScanPipeline ?e ?i ?pp ?a ?s ?t ?pl ?w'] =>
          pose proof (pipeline_report e i pp a s t pl w') as Hrep;
          pose proof (pipeline_findings e i pp a s t pl w') as Hfind;
          destruct (Scan.executeScanPipeline e i pp a s t pl w') as [[message|report0] w1]
      end; cbn [fst snd] in Hrun, Hrep, Hfind; rewrite Hrun.
      * unfold Scan.on_error. cbn [fst]. discriminate.
      * cbn [fst]. intros [= <-].
        destruct (Hrep report0 eq_refl) as (_ & _ & _ & _ & _ & Hai & _).
        destruct (Hfind report0 eq_refl) as (_ & _ & Hnone).
        rewrite Hinc in Hai, Hnone. cbn [default] in Hai, Hnone.
        split; [exact Hnone | exact Hai].
Qed.

Lemma scan_without_ai_witness :
  Scan.POST
    (Scan.mkEnv "3f2a" (inr (Sample.request "contracts/Token.sol")) "/app" Sample.project
       (Scan.mkExec 4000 (inr (Some [Sample.odd_finding])))
       (Scan.mkExec 300000 (inl "Command timed out")) Sample.disk_fine) Sample.fresh
  = Scan.POST Sample.env_odd_severity Sample.fresh
  /\ forall report,
       fst (Scan.POST Sample.env_odd_severity Sample.fresh) = Scan.Ok report ->
       ai report = [] /\ ai_enabled (metadata report) = false.
Proof.
  apply (scan_without_ai Sample.env_odd_severity Sample.fresh
           (Sample.request "contracts/Token.sol")
           (Scan.mkExec 300000 (inl "Command timed out"))); reflexivity.
Defined.

Lemma on_error_frame (env : Scan.Env) (scanId message : string) (w : Scan.World) :
  let w' := snd (Scan.on_error env scanId message w) in
  Scan.ledger w' = Scan.ledger w /\ Scan.cache w' = Scan.cache w
  /\ Scan.issued w' = Scan.issued w /\ Scan.now w' = Scan.now w.
Proof. unfold Scan.on_error. cbn [snd]. apply updateScanStatus_frame. Qed.

(** X5: a request writes no status record and no cached report but its
    own. *)
Theorem scan_touches_own_records (env : Scan.Env) (w : Scan.World) :
  let w' := snd (Scan.POST env w) in
  Scan.issued w' = Scan.uuid env :: Scan.issued w
  /\ (forall other, other <> Scan.uuid env ->
        Scan.statuses w' !! other = Scan.statuses w !! other
        /\ Scan.cache w' !! other = Scan.cache w !! other)
  /\ (Scan.cache w' !! Scan.uuid env = Scan.cache w !! Scan.uuid env
      \/ exists report,
           fst (Scan.POST env w) = Scan.Ok report
           /\ Scan.cache w' !! Scan.uuid env = Some report).
Proof.
  cbv zeta.
  destruct (POST_run env w) as
    [(message & Hb & HP) | [(error & code & HP & Hinv) | (request & p & Hb & Hpath & Hne & Hv & Hrun)]].
  - rewrite HP.
    destruct (on_error_frame env (Scan.uuid env) message (Scan.issue (Scan.uuid env) w))
      as (_ & Hc & Hi & _).
    rewrite Hi, Hc. split; [reflexivity|]. split; [|left; reflexivity].
    intros other Hne. split; [|reflexivity].
    unfold Scan.on_error. cbn [snd]. rewrite status_written_other by exact Hne. reflexivity.
  - rewrite HP. cbn [snd]. split; [reflexivity|]. split; [|left; reflexivity].
    intros other Hne. split; reflexivity.
  - cbv zeta in Hrun.
    match type of Hrun with
    | context [Scan.executeScanPipeline ?e ?i ?pp ?a ?s ?t ?pl ?w'] =>
        pose proof (pipeline_frame e i pp a s t pl w') as (_ & Hc1 & Hi1);
        pose proof (pipeline_statuses e i pp a s t pl w') as [Hs1 _];
        destruct (Scan.executeScanPipeline e i pp a s t pl w') as [[message|report0] w1]
    end; cbn [fst snd] in Hrun, Hc1, Hi1, Hs1; rewrite Hrun.
    + destruct (on_error_frame env (Scan.uuid env) message w1) as (_ & Hc & Hi & _).
      rewrite Hi, Hc, Hi1, Hc1.
      destruct (updateScanStatus_frame (Scan.disk_ok env Scan.AtInitializing) (Scan.uuid env)
                  "running" "Initializing scan pipeline..." (Scan.issue (Scan.uuid env) w))
        as (_ & Hc0 & Hi0 & _).
      rewrite Hi0, Hc0.
      split; [reflexivity|]. split; [|left; reflexivity].
      intros other Hne'. split; [|reflexivity].
      unfold Scan.on_error. cbn [snd]. rewrite status_written_other by exact Hne'.
      rewrite Hs1 by exact Hne'. rewrite status_written_other by exact Hne'. reflexivity.
    + cbn [fst snd].
      set (report := with_metadata _ _).
      destruct (updateScanStatus_frame (Scan.disk_ok env Scan.AtInitializing) (Scan.uuid env)
                  "running" "Initializing scan pipeline..." (Scan.issue (Scan.uuid env) w))
        as (_ & Hc0 & Hi0 & _).
      rewrite Hi0 in Hi1. rewrite Hc0 in Hc1.
      split; [|split].
      * destruct (Scan.disk_ok env Scan.AtCompleted), (Scan.disk_ok env Scan.AtCache),
          (Scan.disk_ok env Scan.AtHistory); exact Hi1.
      * intros other Hne'. split.
        -- rewrite status_written_other by exact Hne'.
           destruct (Scan.disk_ok env Scan.AtCache), (Scan.disk_ok env Scan.AtHistory);
             cbn [Scan.cacheReport Scan.saveToHistory Scan.statuses];
             rewrite Hs1 by exact Hne'; rewrite status_written_other by exact Hne';
             reflexivity.
        -- destruct (Scan.disk_ok env Scan.AtCompleted), (Scan.disk_ok env Scan.AtCache),
             (Scan.disk_ok env Scan.AtHistory);
             cbn [Scan.updateScanStatus Scan.cacheReport Scan.saveToHistory Scan.cache];
             rewrite ?lookup_insert_ne by congruence; rewrite Hc1; reflexivity.
      * destruct (Scan.disk_ok env Scan.AtCache) eqn:Hcache.
        -- right. exists report. split; [reflexivity|].
           destruct (Scan.disk_ok env Scan.AtCompleted), (Scan.disk_ok env Scan.AtHistory);
             cbn [Scan.updateScanStatus Scan.cacheReport Scan.saveToHistory Scan.cache];
             apply lookup_insert_eq.
        -- left.
           destruct (Scan.disk_ok env Scan.AtCompleted), (Scan.disk_ok env Scan.AtHistory);
             cbn [Scan.updateScanStatus Scan.cacheReport Scan.saveToHistory Scan.cache];
             rewrite Hc1; reflexivity.
Qed.

Lemma status_of_trace (scanId : string) (allowed : list string)
    (before after : gmap string Status.t) (t : Z) :
  before !! scanId = None ->
  status_trace scanId allowed before after ->
  let st := StatusRoute.GET after scanId t in
  Status.scanId st = scanId /\ In (Status.status st) ("not_found" :: allowed).
Proof.
  intros Hnone [_ Hown]. unfold StatusRoute.GET.
  destruct Hown as [Heq|(st & Hst & Hid & Hin)].
  - rewrite Heq, Hnone. cbn. auto.
  - rewrite Hst. cbn. auto.
Qed.

(** X6: for a scan id without an earlier record, the status route answers
    after the request with a record of that id; it says [completed] only
    if the request returned a report, and [failed] only if the request
    ended in the error 500 of that scan. *)
Theorem status_reflects_outcome (env : Scan.Env) (w : Scan.World) (t : Z) :
  Scan.statuses w !! Scan.uuid env = None ->
  let st := StatusRoute.GET (Scan.statuses (snd (Scan.POST env w))) (Scan.uuid env) t in
  Status.scanId st = Scan.uuid env
  /\ In (Status.status st) ["not_found"; "running"; "completed"; "failed"]
  /\ (Status.status st = "completed" ->
      exists report, fst (Scan.POST env w) = Scan.Ok report)
  /\ (Status.status st = "failed" ->
      exists error,
        fst (Scan.POST env w) = Scan.Error 500 error "SCAN_FAILED" (Some (Scan.uuid env))).
Proof.
  intros Hnone. cbv zeta.
  assert (Hstep : forall (written : bool) (status message : string) (w1 : Scan.World),
            status_trace (Scan.uuid env) ["running"] (Scan.statuses w) (Scan.statuses w1) ->
            let st :=
              StatusRoute.GET
                (Scan.statuses (Scan.updateScanStatus written (Scan.uuid env) status message w1))
                (Scan.uuid env) t in
            Status.scanId st = Scan.uuid env
            /\ (Status.status st = status \/ In (Status.status st) ["not_found"; "running"])).
  { intros written status message w1 Htrace. cbv zeta.
    unfold StatusRoute.GET at 1 2. rewrite status_written_own.
    destruct written.
    - cbn. auto.
    - destruct (status_of_trace _ _ _ _ t Hnone Htrace) as [Hid Hin].
      unfold StatusRoute.GET in Hid, Hin. split; [exact Hid | right; exact Hin]. }
  assert (Hrunning : forall st : Status.t,
            In (Status.status st) ["not_found"; "running"] ->
            In (Status.status st) ["not_found"; "running"; "completed"; "failed"]
            /\ (Status.status st = "completed" ->
                exists report, fst (Scan.POST env w) = Scan.Ok report)
            /\ (Status.status st = "failed" ->
                exists error,
                  fst (Scan.POST env w)
                  = Scan.Error 500 error "SCAN_FAILED" (Some (Scan.uuid env)))).
  { intros st Hin. cbn in Hin. destruct Hin as [H|[H|[]]]; rewrite <- H; cbn.
    - split; [auto|]. split; discriminate.
    - split; [auto|]. split; discriminate. }
  assert (Htrace0 : forall written message,
            status_trace (Scan.uuid env) ["running"] (Scan.statuses w)
              (Scan.statuses
                 (Scan.updateScanStatus written (Scan.uuid env) "running" message
                    (Scan.issue (Scan.uuid env) w)))).
  { intros written message.
    apply (status_trace_update written (Scan.uuid env) "running" message ["running"]
             (Scan.issue (Scan.uuid env) w)).
    left; reflexivity. }
  destruct (POST_run env w) as
    [(message & Hb & HP) | [(error & code & HP & Hinv) | (request & p & Hb & Hpath & Hne & Hv & Hrun)]].
  - pose proof (f_equal fst HP) as Hfst. pose proof (f_equal snd HP) as Hsnd.
    unfold Scan.on_error in Hfst, Hsnd. cbn [fst snd] in Hfst, Hsnd. rewrite Hsnd.
    destruct (Hstep (Scan.disk_ok env Scan.AtFailed) "failed" message
                (Scan.issue (Scan.uuid env) w) (status_trace_refl _ _ _)) as [Hid [Hs|Hs]].
    + split; [exact Hid|]. rewrite Hs. cbn. split; [auto|].
      split; [discriminate|]. intros _. rewrite Hfst. eexists; reflexivity.
    + split; [exact Hid|]. apply Hrunning. exact Hs.
  - pose proof (f_equal snd HP) as Hsnd. cbn [snd] in Hsnd. rewrite Hsnd.
    destruct (status_of_trace (Scan.uuid env) ["running"] (Scan.statuses w)
                (Scan.statuses (Scan.issue (Scan.uuid env) w)) t Hnone
                (status_trace_refl _ _ _)) as [Hid Hs].
    split; [exact Hid|]. apply Hrunning. exact Hs.
  - cbv zeta in Hrun.
    match type of Hrun with
    | context [Scan.executeScanPipeline ?e ?i ?pp ?a ?s ?tt ?pl ?w'] =>
        pose proof (pipeline_statuses e i pp a s tt pl w') as Hs1;
        destruct (Scan.executeScanPipeline e i pp a s tt pl w') as [[message|report0] w1]
    end; cbn [fst snd] in Hrun, Hs1;
      pose proof (f_equal fst Hrun) as Hfst; pose proof (f_equal snd Hrun) as Hsnd;
      unfold Scan.on_error in Hfst, Hsnd; cbn [fst snd] in Hfst, Hsnd; rewrite Hsnd.
    + destruct (Hstep (Scan.disk_ok env Scan.AtFailed) "failed" message w1
                  (status_trace_trans _ _ _ _ _ (Htrace0 _ _) Hs1)) as [Hid [Hs|Hs]].
      * split; [exact Hid|]. rewrite Hs. cbn. split; [auto|].
        split; [discriminate|]. intros _. rewrite Hfst. eexists; reflexivity.
      * split; [exact Hid|]. apply Hrunning. exact Hs.
    + match goal with
      | |- context [Scan.cacheReport ?b ?i ?r ?w'] => set (cached := Scan.cacheReport b i r w')
      end.
      assert (Htr : status_trace (Scan.uuid env) ["running"] (Scan.statuses w)
                      (Scan.statuses cached)).
      { subst cached.
        destruct (Scan.disk_ok env Scan.AtCache), (Scan.disk_ok env Scan.AtHistory);
          cbn [Scan.cacheReport Scan.saveToHistory Scan.statuses];
          exact (status_trace_trans _ _ _ _ _ (Htrace0 _ _) Hs1). }
      destruct (Hstep (Scan.disk_ok env Scan.AtCompleted) "completed"
                  "Scan completed successfully" cached Htr) as [Hid [Hs|Hs]].
      * split; [exact Hid|]. rewrite Hs. cbn. split; [auto|].
        split; [|discriminate]. intros _. rewrite Hfst. eexists; reflexivity.
      * split; [exact Hid|]. apply Hrunning. exact Hs.
Qed.

Lemma status_reflects_outcome_witness :
  let st :=
    StatusRoute.GET
      (Scan.statuses (snd (Scan.POST (Sample.env_static_fails Sample.disk_fine) Sample.fresh)))
      "3f2a" 1754462900000 in
  Status.scanId st = "3f2a"
  /\ In (Status.status st) ["not_found"; "running"; "completed"; "failed"]
  /\ (Status.status st = "completed" ->
      exists report,
        fst (Scan.POST (Sample.env_static_fails Sample.disk_fine) Sample.fresh)
        = Scan.Ok report)
  /\ (Status.status st = "failed" ->
      exists error,
        fst (Scan.POST (Sample.env_static_fails Sample.disk_fine) Sample.fresh)
        = Scan.Error 500 error "SCAN_FAILED" (Some "3f2a")).
Proof.
  apply (status_reflects_outcome (Sample.env_static_fails Sample.disk_fine) Sample.fresh
           1754462900000).
  reflexivity.
Defined.

(** X7: a scan that succeeded and whose writes reached the disk is found
    by the routes that read the stores. *)
Theorem completed_scan_is_retrievable (env : Scan.Env) (w : Scan.World)
    (report : ScanReport) (t : Z) :
  fst (Scan.POST env w) = Scan.Ok report ->
  Scan.disk_ok env Scan.AtCompleted = true ->
  Scan.disk_ok env Scan.AtCache = true ->
  Scan.disk_ok env Scan.AtHistory = true ->
  let w' := snd (Scan.POST env w) in
  StatusRoute.GET (Scan.statuses w') (Scan.uuid env) t
  = Status.mk (Scan.uuid env) "completed" "Scan completed successfully" (Scan.now w')
  /\ ReportRoute.GET (Scan.cache w') (Scan.uuid env) = ReportRoute.Found report
  /\ hd_error (History.GET (Scan.ledger w')) = Some (Scan.historyEntry report).
Proof.
  intros Hok Hcompleted Hcache Hhistory. cbv zeta.
  destruct (POST_run env w) as
    [(message & Hb & HP) | [(error & code & HP & Hinv) | (request & p & Hb & Hpath & Hne & Hv & Hrun)]].
  - rewrite HP in Hok. unfold Scan.on_error in Hok. cbn [fst] in Hok. discriminate.
  - rewrite HP in Hok. cbn [fst] in Hok. discriminate.
  - cbv zeta in Hrun.
    match type of Hrun with
    | context [Scan.executeScanPipeline ?e ?i ?pp ?a ?s ?tt ?pl ?w'] =>
        destruct (Scan.executeScanPipeline e i pp a s tt pl w') as [[message|report0] w1]
    end; cbn [fst snd] in Hrun; rewrite Hrun in Hok |- *.
    + unfold Scan.on_error in Hok. cbn [fst] in Hok. discriminate.
    + cbn [fst snd] in Hok |- *. set (r := with_metadata _ _) in *.
      injection Hok as Hok. subst report.
      rewrite Hcompleted, Hcache, Hhistory.
      cbn [Scan.updateScanStatus Scan.cacheReport Scan.saveToHistory Scan.statuses Scan.cache
           Scan.ledger Scan.now].
      unfold StatusRoute.GET, ReportRoute.GET.
      rewrite !lookup_insert_eq.
      split; [reflexivity|]. split; [reflexivity|].
      unfold History.GET. rewrite default_Some.
      rewrite append_is_firstn. reflexivity.
Qed.

Lemma completed_scan_is_retrievable_witness :
  exists report,
    fst (Scan.POST Sample.env_ai_fails Sample.fresh) = Scan.Ok report
    /\ let w' := snd (Scan.POST Sample.env_ai_fails Sample.fresh) in
       StatusRoute.GET (Scan.statuses w') "3f2a" 1754462900000
       = Status.mk "3f2a" "completed" "Scan completed successfully" (Scan.now w')
       /\ ReportRoute.GET (Scan.cache w') "3f2a" = ReportRoute.Found report
       /\ hd_error (History.GET (Scan.ledger w')) = Some (Scan.historyEntry report).
Proof.
  eexists. split; [vm_compute; reflexivity|].
  apply (completed_scan_is_retrievable Sample.env_ai_fails Sample.fresh _ 1754462900000);
    reflexivity.
Defined.



(** * Further properties of the analytics *)

Lemma sum_app (l1 l2 : list Z) :
  Analytics.sum (l1 ++ l2) = Analytics.sum l1 + Analytics.sum l2.
Proof.
  unfold Analytics.sum at 1. rewrite fold_left_app. rewrite fold_add_shift.
  reflexivity.
Qed.

Lemma sum_map_add {A} (g h : A -> Z) (l : list A) :
  Analytics.sum (map (fun a => g a + h a) l)
  = Analytics.sum (map g l) + Analytics.sum (map h l).
Proof.
  induction l as [|a l IH]; [reflexivity|].
  cbn [map]. rewrite !sum_cons, IH. lia.
Qed.

Lemma sum_nonneg (l : list Z) : Forall (fun x => 0 <= x) l -> 0 <= Analytics.sum l.
Proof.
  induction 1 as [|x l Hx _ IH]; [reflexivity|]. rewrite sum_cons. lia.
Qed.

Lemma sum_perm (l l' : list Z) : Permutation l l' -> Analytics.sum l = Analytics.sum l'.
Proof.
  induction 1 as [|x l l' _ IH|x y l|l l' l'' _ IH1 _ IH2].
  - reflexivity.
  - rewrite !sum_cons, IH. reflexivity.
  - rewrite !sum_cons. lia.
  - congruence.
Qed.

Lemma sum_ones {A} (l : list A) : Analytics.sum (map (fun _ => 1) l) = Z.of_nat (List.length l).
Proof.
  induction l as [|a l IH]; [reflexivity|].
  cbn [map List.length]. rewrite sum_cons, IH. lia.
Qed.

Lemma fold_sum_map {A} (g : A -> Z) (l : list A) (a : Z) :
  fold_left (fun sum x => sum + g x) l a = a + Analytics.sum (map g l).
Proof.
  revert a. induction l as [|x l IH]; intros a; cbn [fold_left map].
  - unfold Analytics.sum. cbn. lia.
  - rewrite IH, sum_cons. lia.
Qed.

(** The one key among distinct keys. *)
Lemma sum_indicator (x : string) (v : Z) (ks : list string) :
  List.NoDup ks ->
  Analytics.sum (map (fun k => if String.eqb x k then v else 0) ks)
  = if existsb (String.eqb x) ks then v else 0.
Proof.
  induction 1 as [|k ks Hnotin _ IH]; [reflexivity|].
  cbn [map existsb]. rewrite sum_cons, IH.
  destruct (String.eqb_spec x k) as [->|Hne]; cbn [orb]; [|lia].
  destruct (existsb (String.eqb k) ks) eqn:Hex; [|lia].
  apply existsb_eqb_In in Hex. contradiction.
Qed.

(** A sum taken key by key is the sum over the whole list. *)
Lemma sum_by_key {A} (key : A -> string) (weight : A -> Z) (l : list A) :
  Analytics.sum
    (map (fun k =>
            Analytics.sum (map weight (List.filter (fun a => String.eqb (key a) k) l)))
       (Analytics.first_seen (map key l)))
  = Analytics.sum (map weight l).
Proof.
  induction l as [|a l IH] using rev_ind; [reflexivity|].
  rewrite (map_app key). cbn [map]. rewrite first_seen_snoc.
  rewrite (map_app weight), sum_app. cbn [map]. rewrite (sum_cons (weight a) []).
  set (ks := Analytics.first_seen (map key l)) in *.
  assert (Hstep : forall k,
            Analytics.sum (map weight (List.filter (fun a0 => String.eqb (key a0) k) (l ++ [a])))
            = Analytics.sum (map weight (List.filter (fun a0 => String.eqb (key a0) k) l))
              + (if String.eqb (key a) k then weight a else 0)).
  { intros k. rewrite List.filter_app, map_app, sum_app. cbn [List.filter].
    destruct (String.eqb (key a) k); reflexivity. }
  assert (Hall : Analytics.sum
                   (map (fun k =>
                           Analytics.sum
                             (map weight
                                (List.filter (fun a0 => String.eqb (key a0) k) (l ++ [a]))))
                      ks)
                 = Analytics.sum (map weight l)
                   + (if existsb (String.eqb (key a)) ks then weight a else 0)).
  { rewrite (map_ext _ _ Hstep). rewrite sum_map_add, IH.
    rewrite sum_indicator by apply first_seen_NoDup. reflexivity. }
  change (Analytics.sum []) with 0.
  destruct (existsb (String.eqb (key a)) ks) eqn:Hex.
  - rewrite Hall. lia.
  - rewrite map_app, sum_app, Hall. cbn [map]. rewrite sum_cons, Hstep.
    rewrite String.eqb_refl.
    rewrite filter_none.
    + change (Analytics.sum (map weight [])) with 0. change (Analytics.sum []) with 0. lia.
    + intros a0 Hin. apply String.eqb_neq. intros Heq.
      assert (Hk : In (key a) ks).
      { apply first_seen_In. rewrite <- Heq. apply in_map. exact Hin. }
      apply existsb_eqb_In in Hk. congruence.
Qed.




(** X10: the buckets of [scanTrends] lose no scan: together they count
    at most the ledger, and the whole of it when the ledger spans at most
    30 dates. *)
Theorem scan_trends_conserve (history : list History.Entry) :
  let out := Analytics.calculateScanTrends history in
  Analytics.sum (map Analytics.scans out) <= Z.of_nat (List.length history)
  /\ ((List.length (Analytics.first_seen (map Analytics.scan_date history)) <= 30)%nat ->
      Analytics.sum (map Analytics.scans out) = Z.of_nat (List.length history)
      /\ Analytics.sum (map Analytics.findings out)
         = Analytics.sum (map History.findings_count history)).
Proof.
  cbv zeta. rewrite scan_trends_sorted_form.
  set (ds := Analytics.first_seen (map Analytics.scan_date history)).
  set (all := Js.sort _ _).
  assert (Hperm : Permutation all (map (fun d => Analytics.spec_trend d history) ds))
    by apply sort_perm.
  assert (Hscans : Analytics.sum (map Analytics.scans all) = Z.of_nat (List.length history)).
  { rewrite (sum_perm _ _ (Permutation_map Analytics.scans Hperm)).
    rewrite map_map. cbn [Analytics.spec_trend Analytics.scans].
    rewrite <- (sum_ones history), <- (sum_by_key Analytics.scan_date (fun _ => 1) history).
    fold ds. f_equal. apply map_ext. intros d. rewrite sum_ones. reflexivity. }
  assert (Hfindings : Analytics.sum (map Analytics.findings all)
                      = Analytics.sum (map History.findings_count history)).
  { rewrite (sum_perm _ _ (Permutation_map Analytics.findings Hperm)).
    rewrite map_map. cbn [Analytics.spec_trend Analytics.findings].
    rewrite <- (sum_by_key Analytics.scan_date History.findings_count history).
    reflexivity. }
  split.
  - destruct (slice_last_split 30 all) as (Hsplit & _ & _).
    rewrite <- Hscans. rewrite Hsplit at 2. rewrite map_app, sum_app.
    assert (0 <= Analytics.sum
                   (map Analytics.scans (firstn (List.length all - 30) all))); [|lia].
    apply sum_nonneg. apply List.Forall_forall. intros x Hx.
    apply in_map_iff in Hx. destruct Hx as (t & <- & Ht).
    assert (Ht' : In t all).
    { rewrite <- (firstn_skipn (List.length all - 30) all). apply in_or_app. left. exact Ht. }
    clear Ht. rename Ht' into Ht.
    apply (Permutation_in _ Hperm) in Ht. apply in_map_iff in Ht.
    destruct Ht as (d & <- & _). cbn [Analytics.spec_trend Analytics.scans]. lia.
  - intros Hfew.
    assert (Hlen : (List.length all <= 30)%nat).
    { rewrite (Permutation_length Hperm), length_map. exact Hfew. }
    unfold Js.slice_last.
    replace (List.length all - 30)%nat with 0%nat by lia. cbn [skipn].
    split; assumption.
Qed.

Lemma round_between (lo hi : Z) (q : Q) :
  (inject_Z lo <= q)%Q -> (q <= inject_Z hi)%Q -> lo <= Js.Math_round q <= hi.
Proof.
  intros Hlo Hhi. unfold Js.Math_round. split.
  - rewrite <- (Qfloor_Z lo). apply Qfloor_resp_le. lra.
  - assert (H : (inject_Z (Qfloor (q + (1 # 2))) <= q + (1 # 2))%Q) by apply Qfloor_le.
    assert (H' : (inject_Z (Qfloor (q + (1 # 2))) < inject_Z (hi + 1))%Q).
    { rewrite inject_Z_plus. change (inject_Z 1) with 1%Q. lra. }
    rewrite <- Zlt_Qlt in H'. lia.
Qed.

Lemma mean_between (lo hi : Z) (l : list Z) :
  l <> [] -> (forall x, In x l -> lo <= x <= hi) ->
  lo <= Js.Math_round (inject_Z (Analytics.sum l) / inject_Z (Z.of_nat (List.length l))) <= hi.
Proof.
  intros Hne Hall.
  assert (Hsum : Z.of_nat (List.length l) * lo <= Analytics.sum l
                 <= Z.of_nat (List.length l) * hi).
  { clear Hne. induction l as [|x l IH].
    - cbn. change (Analytics.sum []) with 0. lia.
    - rewrite sum_cons. cbn [List.length].
      assert (lo <= x <= hi) by (apply Hall; left; reflexivity).
      assert (Z.of_nat (List.length l) * lo <= Analytics.sum l
              <= Z.of_nat (List.length l) * hi)
        by (apply IH; intros y Hy; apply Hall; right; exact Hy).
      lia. }
  assert (Hpos : 0 < Z.of_nat (List.length l)).
  { destruct l; [congruence|]. cbn [List.length]. lia. }
  set (n := Z.of_nat (List.length l)) in *.
  assert (HposQ : (0 < inject_Z n)%Q).
  { change 0%Q with (inject_Z 0). rewrite <- Zlt_Qlt. exact Hpos. }
  apply round_between.
  - apply Qle_shift_div_l; [exact HposQ|].
    rewrite <- inject_Z_mult, <- Zle_Qle. lia.
  - apply Qle_shift_div_r; [exact HposQ|].
    rewrite <- inject_Z_mult, <- Zle_Qle. lia.
Qed.

(** X11: the totals of the analytics: the number of scans is the length
    of the ledger, the number of findings the sum of its counts, the tool
    usage is always empty, a missing or empty ledger gives zeros, and the
    average risk score lies between any bounds of the scores. *)
Theorem analytics_totals (ledger : option (list History.Entry))
    (cache : gmap string ScanReport) :
  let a := Analytics.GET ledger cache in
  let history := History.GET ledger in
  Analytics.Snapshot.totalScans a = Z.of_nat (List.length history)
  /\ Analytics.Snapshot.totalFindings a = Analytics.sum (map History.findings_count history)
  /\ Analytics.Snapshot.toolUsage a = []
  /\ (history = [] -> a = Analytics.Snapshot.mk 0 0 0 [] [] [] [])
  /\ forall lo hi,
       history <> [] ->
       (forall scan, In scan history -> lo <= History.risk_score scan <= hi) ->
       lo <= Analytics.Snapshot.averageRiskScore a <= hi.
Proof.
  cbv zeta. destruct ledger as [history|]; unfold History.GET; cbn [default Analytics.GET].
  2:{ do 4 (split; [reflexivity|]). intros lo hi Hne. congruence. }
  unfold Datatypes.id.
  cbn [Analytics.Snapshot.totalScans Analytics.Snapshot.totalFindings
       Analytics.Snapshot.toolUsage Analytics.Snapshot.averageRiskScore].
  split; [reflexivity|].
  split; [rewrite fold_sum_map; lia|].
  split; [reflexivity|].
  split.
  - intros ->. reflexivity.
  - intros lo hi Hne Hall.
    destruct history as [|scan rest] eqn:Hh; [congruence|]. rewrite <- Hh in *.
    assert (Hpos : (0 <? Z.of_nat (List.length history)) = true).
    { apply Z.ltb_lt. rewrite Hh. cbn [List.length]. lia. }
    rewrite Hpos. rewrite fold_sum_map, Z.add_0_l.
    rewrite <- (length_map History.risk_score history).
    apply mean_between.
    + rewrite Hh. discriminate.
    + intros x Hx. apply in_map_iff in Hx. destruct Hx as (s & <- & Hs). apply Hall, Hs.
Qed.

(** X20: the average risk score of a bucket lies between the lowest and
    the highest score of the scans of its date. *)
Theorem trend_average_between (history : list History.Entry) :
  Forall (fun t =>
            forall lo hi,
              (forall scan, In scan (Analytics.on_date (Analytics.date t) history) ->
                            lo <= History.risk_score scan <= hi) ->
              lo <= Analytics.avgRiskScore t <= hi)
    (Analytics.calculateScanTrends history).
Proof.
  rewrite scan_trends_sorted_form. apply List.Forall_forall. intros t Ht lo hi Hall.
  assert (Hin : In t (map (fun d => Analytics.spec_trend d history)
                        (Analytics.first_seen (map Analytics.scan_date history)))).
  { eapply Permutation_in; [apply sort_perm|].
    unfold Js.slice_last in Ht.
    match type of Ht with
    | In _ (skipn ?n ?l) => rewrite <- (firstn_skipn n l); apply in_or_app; right; exact Ht
    end. }
  apply in_map_iff in Hin. destruct Hin as (d & <- & Hd).
  apply (proj1 (first_seen_In _ _)) in Hd.
  pose proof (on_date_nonempty d history Hd) as Hne.
  cbn [Analytics.spec_trend Analytics.date Analytics.avgRiskScore] in Hall |- *.
  rewrite <- (length_map History.risk_score (Analytics.on_date d history)).
  apply mean_between.
  - destruct (Analytics.on_date d history); [congruence|discriminate].
  - intros x Hx. apply in_map_iff in Hx. destruct Hx as (scan & <- & Hs). apply Hall, Hs.
Qed.

(** ** Cluster keys and the titles shown for them *)

Lemma all_chars_map (p : ascii -> bool) (f : ascii -> ascii) (s : string) :
  (forall c, p (f c) = true) -> all_chars p (Js.map_chars f s) = true.
Proof.
  intros H. induction s as [|c s IH]; [reflexivity|].
  cbn [Js.map_chars all_chars]. rewrite H, IH. reflexivity.
Qed.

Lemma map_chars_fixed (p : ascii -> bool) (f : ascii -> ascii) (s : string) :
  (forall c, p c = true -> f c = c) -> all_chars p s = true -> Js.map_chars f s = s.
Proof.
  intros H. induction s as [|c s IH]; [reflexivity|].
  cbn [Js.map_chars all_chars]. intros Hall. apply andb_true_iff in Hall.
  destruct Hall as [Hc Hs]. rewrite (H c Hc), (IH Hs). reflexivity.
Qed.

Lemma all_chars_trimStart (p : ascii -> bool) (s : string) :
  all_chars p s = true -> all_chars p (Js.trimStart s) = true.
Proof.
  induction s as [|c s IH]; [reflexivity|].
  cbn [Js.trimStart]. destruct (Js.is_space c); [|tauto].
  cbn [all_chars]. intros H. apply andb_true_iff in H. apply IH, H.
Qed.

Lemma all_chars_trimEnd (p : ascii -> bool) (s : string) :
  all_chars p s = true -> all_chars p (Js.trimEnd s) = true.
Proof.
  induction s as [|c s IH]; [reflexivity|].
  cbn [Js.trimEnd all_chars]. intros H. apply andb_true_iff in H. destruct H as [Hc Hs].
  specialize (IH Hs).
  destruct (Js.trimEnd s) as [|d t].
  - destruct (Js.is_space c); [reflexivity|]. cbn [all_chars]. rewrite Hc. reflexivity.
  - cbn [all_chars] in IH |- *. rewrite Hc, IH. reflexivity.
Qed.

Lemma trimStart_length (s : string) :
  (String.length (Js.trimStart s) <= String.length s)%nat.
Proof.
  induction s as [|c s IH]; [reflexivity|].
  cbn [Js.trimStart]. destruct (Js.is_space c); cbn [String.length]; lia.
Qed.

Lemma trimStart_idempotent (s : string) : Js.trimStart (Js.trimStart s) = Js.trimStart s.
Proof.
  induction s as [|c s IH]; [reflexivity|].
  cbn [Js.trimStart]. destruct (Js.is_space c) eqn:Hc; [exact IH|].
  cbn [Js.trimStart]. rewrite Hc. reflexivity.
Qed.

Lemma trimEnd_idempotent (s : string) : Js.trimEnd (Js.trimEnd s) = Js.trimEnd s.
Proof.
  induction s as [|c s IH]; [reflexivity|].
  cbn [Js.trimEnd]. destruct (Js.trimEnd s) as [|d t] eqn:Ht.
  - destruct (Js.is_space c) eqn:Hc; [reflexivity|].
    cbn [Js.trimEnd]. rewrite Hc. reflexivity.
  - cbn [Js.trimEnd] in IH |- *. rewrite IH. reflexivity.
Qed.

Lemma trimStart_trimEnd (s : string) :
  Js.trimStart s = s -> Js.trimStart (Js.trimEnd s) = Js.trimEnd s.
Proof.
  destruct s as [|c s]; [reflexivity|].
  cbn [Js.trimStart]. destruct (Js.is_space c) eqn:Hc.
  - intros H. pose proof (trimStart_length s) as Hlen. rewrite H in Hlen.
    cbn [String.length] in Hlen. lia.
  - intros _. cbn [Js.trimEnd].
    destruct (Js.trimEnd s) as [|d t]; rewrite ?Hc; cbn [Js.trimStart]; rewrite Hc; reflexivity.
Qed.

Lemma trim_idempotent (s : string) : Js.trim (Js.trim s) = Js.trim s.
Proof.
  unfold Js.trim.
  rewrite (trimStart_trimEnd (Js.trimStart s)) by apply trimStart_idempotent.
  apply trimEnd_idempotent.
Qed.

Lemma key_char_lower (c : ascii) : key_char c = true -> Js.lower_char c = c.
Proof.
  destruct c as [[] [] [] [] [] [] [] []]; intros H; try reflexivity; discriminate H.
Qed.

Lemma key_char_kept (c : ascii) :
  key_char c = true ->
  (if Js.in_range "a" "z" c || Js.in_range "0" "9" c then c else " "%char) = c.
Proof.
  unfold key_char. destruct (Js.in_range "a" "z" c || Js.in_range "0" "9" c); [reflexivity|].
  cbn [orb]. intros H. apply Ascii.eqb_eq in H. congruence.
Qed.

Lemma key_char_replaced (c : ascii) :
  key_char (if Js.in_range "a" "z" c || Js.in_range "0" "9" c then c else " "%char) = true.
Proof.
  unfold key_char at 1.
  destruct (Js.in_range "a" "z" c || Js.in_range "0" "9" c) eqn:H; [rewrite H|]; reflexivity.
Qed.

Lemma lower_char_idempotent (c : ascii) : Js.lower_char (Js.lower_char c) = Js.lower_char c.
Proof. destruct c as [[] [] [] [] [] [] [] []]; reflexivity. Qed.

Lemma lower_upper_char (c : ascii) : Js.lower_char (Js.upper_char c) = Js.lower_char c.
Proof. destruct c as [[] [] [] [] [] [] [] []]; reflexivity. Qed.

Lemma map_chars_compose (f g : ascii -> ascii) (s : string) :
  Js.map_chars f (Js.map_chars g s) = Js.map_chars (fun c => f (g c)) s.
Proof.
  induction s as [|c s IH]; [reflexivity|]. cbn [Js.map_chars]. rewrite IH. reflexivity.
Qed.

Lemma map_chars_ext (f g : ascii -> ascii) (s : string) :
  (forall c, f c = g c) -> Js.map_chars f s = Js.map_chars g s.
Proof.
  intros H. induction s as [|c s IH]; [reflexivity|]. cbn [Js.map_chars]. rewrite H, IH.
  reflexivity.
Qed.

Lemma cluster_key_chars (title : string) :
  all_chars key_char (Analytics.cluster_key title) = true.
Proof.
  unfold Analytics.cluster_key, Js.trim.
  apply all_chars_trimEnd, all_chars_trimStart, all_chars_map, key_char_replaced.
Qed.

(** X12: the cluster key of a title is in normal form, and titles that
    differ in case only have the same key. *)
Theorem cluster_key_normal_form (title : string) :
  let key := Analytics.cluster_key title in
  all_chars key_char key = true
  /\ Js.trim key = key
  /\ Analytics.cluster_key key = key
  /\ Analytics.cluster_key (Js.toLowerCase title) = key
  /\ Analytics.cluster_key (Js.map_chars Js.upper_char title) = key.
Proof.
  cbv zeta. split; [apply cluster_key_chars|].
  split; [unfold Analytics.cluster_key; apply trim_idempotent|].
  split; [|split].
  - pose proof (cluster_key_chars title) as Hchars.
    unfold Analytics.cluster_key at 1. unfold Js.toLowerCase.
    rewrite (map_chars_fixed key_char Js.lower_char _ key_char_lower Hchars).
    rewrite (map_chars_fixed key_char _ _ key_char_kept Hchars).
    unfold Analytics.cluster_key. apply trim_idempotent.
  - unfold Analytics.cluster_key, Js.toLowerCase.
    rewrite (map_chars_compose Js.lower_char Js.lower_char).
    rewrite (map_chars_ext _ Js.lower_char title lower_char_idempotent). reflexivity.
  - unfold Analytics.cluster_key, Js.toLowerCase.
    rewrite (map_chars_compose Js.lower_char Js.upper_char).
    rewrite (map_chars_ext _ Js.lower_char title lower_upper_char). reflexivity.
Qed.

Lemma split_nonempty (sep : ascii) (s : string) : Js.split sep s <> [].
Proof.
  destruct s as [|c s]; cbn [Js.split]; [discriminate|].
  destruct (Ascii.eqb c sep); [discriminate|].
  destruct (Js.split sep s); discriminate.
Qed.

Lemma concat_split (sep : ascii) (s : string) :
  String.concat (String sep EmptyString) (Js.split sep s) = s.
Proof.
  induction s as [|c s IH]; [reflexivity|].
  cbn [Js.split]. pose proof (split_nonempty sep s) as Hne.
  destruct (Ascii.eqb_spec c sep) as [->|Hc].
  - destruct (Js.split sep s) as [|w ws]; [congruence|].
    cbn [String.concat String.append] in IH |- *. rewrite IH. reflexivity.
  - destruct (Js.split sep s) as [|w ws]; [congruence|].
    assert (Hcons : String.concat (String sep EmptyString) (String c w :: ws)
                    = String c (String.concat (String sep EmptyString) (w :: ws)))
      by (destruct ws; reflexivity).
    rewrite Hcons, IH. reflexivity.
Qed.

Lemma all_chars_split (p : ascii -> bool) (sep : ascii) (s : string) :
  all_chars p s = true -> Forall (fun w => all_chars p w = true) (Js.split sep s).
Proof.
  induction s as [|c s IH]; intros H.
  - repeat constructor.
  - cbn [all_chars] in H. apply andb_true_iff in H. destruct H as [Hc Hs].
    specialize (IH Hs). cbn [Js.split].
    destruct (Ascii.eqb c sep).
    + constructor; [reflexivity|exact IH].
    + destruct (Js.split sep s) as [|w ws].
      * repeat constructor. cbn [all_chars]. rewrite Hc. reflexivity.
      * inversion IH as [|? ? Hw Hws]; subst. constructor; [|exact Hws].
        cbn [all_chars]. rewrite Hc, Hw. reflexivity.
Qed.

Lemma map_chars_append (f : ascii -> ascii) (a b : string) :
  Js.map_chars f (a ++ b) = (Js.map_chars f a ++ Js.map_chars f b)%string.
Proof.
  induction a as [|c a IH]; [reflexivity|].
  simpl. rewrite IH. reflexivity.
Qed.

Lemma map_chars_concat (f : ascii -> ascii) (sep : string) (ws : list string) :
  Js.map_chars f sep = sep ->
  Js.map_chars f (String.concat sep ws) = String.concat sep (map (Js.map_chars f) ws).
Proof.
  intros Hsep. induction ws as [|w ws IH]; [reflexivity|].
  destruct ws as [|w' ws'].
  - reflexivity.
  - cbn [String.concat map] in IH |- *.
    rewrite !map_chars_append, Hsep, IH. reflexivity.
Qed.

Lemma key_char_lower_upper (c : ascii) :
  key_char c = true -> Js.lower_char (Js.upper_char c) = c.
Proof.
  destruct c as [[] [] [] [] [] [] [] []]; intros H; try reflexivity; discriminate H.
Qed.

Lemma lower_capitalize (w : string) :
  all_chars key_char w = true -> Js.toLowerCase (Analytics.capitalize w) = w.
Proof.
  destruct w as [|c w]; [reflexivity|].
  cbn [all_chars Analytics.capitalize]. intros H. apply andb_true_iff in H.
  destruct H as [Hc Hw]. unfold Js.toLowerCase. cbn [Js.map_chars].
  rewrite (key_char_lower_upper c Hc).
  rewrite (map_chars_fixed key_char Js.lower_char w key_char_lower Hw). reflexivity.
Qed.

(** X13: the title shown for a cluster gives its key back. *)
Theorem display_title_round_trip (title : string) :
  let key := Analytics.cluster_key title in
  Js.toLowerCase (Analytics.display_title key) = key
  /\ Analytics.cluster_key (Analytics.display_title key) = key
  /\ forall title',
       Analytics.display_title (Analytics.cluster_key title') = Analytics.display_title key ->
       Analytics.cluster_key title' = key.
Proof.
  cbv zeta.
  assert (Hround : forall t,
            Js.toLowerCase (Analytics.display_title (Analytics.cluster_key t))
            = Analytics.cluster_key t).
  { intros t. pose proof (cluster_key_chars t) as Hchars.
    unfold Analytics.display_title, Js.toLowerCase.
    rewrite map_chars_concat by reflexivity.
    rewrite map_map.
    rewrite (map_ext_in _ (fun w => w)).
    - rewrite map_id. apply (concat_split " ").
    - intros w Hw. apply lower_capitalize.
      pose proof (all_chars_split key_char " " _ Hchars) as Hall.
      rewrite List.Forall_forall in Hall. apply Hall, Hw. }
  split; [apply Hround|]. split.
  - assert (Hlower : forall t, Analytics.cluster_key (Js.toLowerCase t) = Analytics.cluster_key t).
    { intros t. unfold Analytics.cluster_key, Js.toLowerCase.
      rewrite (map_chars_compose Js.lower_char Js.lower_char).
      rewrite (map_chars_ext _ Js.lower_char t lower_char_idempotent). reflexivity. }
    rewrite <- Hlower, Hround.
    pose proof (cluster_key_chars title) as Hchars.
    unfold Analytics.cluster_key at 1. unfold Js.toLowerCase.
    rewrite (map_chars_fixed key_char Js.lower_char _ key_char_lower Hchars).
    rewrite (map_chars_fixed key_char _ _ key_char_kept Hchars).
    unfold Analytics.cluster_key. apply trim_idempotent.
  - intros title' Heq. rewrite <- (Hround title'), Heq. apply Hround.
Qed.

(** * The dashboard page *)







(** * The editor extension *)

Lemma push_diagnostics (fs : list Finding) (ds : list (Extension.Diagnostic.t * Finding)) :
  fold_left Extension.push_diagnostic fs ds
  = ds ++ flat_map (fun f => match Extension.createDiagnostic f with
                             | Some d => [(d, f)]
                             | None => []
                             end) fs.
Proof.
  revert ds. induction fs as [|f fs IH]; intros ds; cbn [fold_left flat_map].
  - rewrite app_nil_r. reflexivity.
  - rewrite IH. unfold Extension.push_diagnostic.
    destruct (Extension.createDiagnostic f); [rewrite <- app_assoc|]; reflexivity.
Qed.

Lemma diagnostic_line (f : Finding) (d : Extension.Diagnostic.t) :
  Extension.createDiagnostic f = Some d ->
  0 <= Extension.Diagnostic.line d
  /\ Extension.Diagnostic.source d = "spoon-audit"
  /\ Extension.Diagnostic.severity d
     = Extension.diagnostic_severity (Js.toLowerCase (severity f)).
Proof.
  unfold Extension.createDiagnostic.
  destruct (Extension.parseInt _) as [n|]; [|discriminate].
  destruct (n - 1 <? 0) eqn:Hneg; [discriminate|].
  intros [= <-]. cbn. apply Z.ltb_ge in Hneg. auto.
Qed.

(** X16: the diagnostics shown for a report are those of its findings
    that have a usable line, static findings first, in order. *)
Theorem diagnostics_follow_findings (static ai : list Finding) :
  let shown := Extension.diagnostics_of static ai in
  map snd shown
  = List.filter (fun f => match Extension.createDiagnostic f with
                          | Some _ => true
                          | None => false
                          end) (static ++ ai)
  /\ Forall (fun '(d, f) =>
               Extension.createDiagnostic f = Some d
               /\ 0 <= Extension.Diagnostic.line d) shown
  /\ Z.of_nat (List.length shown) <= Extension.totalFindings static ai.
Proof.
  cbv zeta. unfold Extension.diagnostics_of.
  rewrite !push_diagnostics. cbn [app]. rewrite <- flat_map_app.
  unfold Extension.totalFindings. rewrite <- Nat2Z.inj_add, <- List.length_app.
  generalize (static ++ ai). intros fs.
  induction fs as [|f fs (IH1 & IH2 & IH3)]; cbn [flat_map List.filter map List.length].
  - split; [reflexivity|]. split; [constructor|lia].
  - destruct (Extension.createDiagnostic f) as [d|] eqn:Hd.
    + cbn [app map snd List.length]. split; [rewrite IH1; reflexivity|].
      split; [|lia].
      constructor; [|exact IH2]. split; [exact Hd|]. apply (diagnostic_line f d Hd).
    + cbn [app]. split; [exact IH1|]. split; [exact IH2|lia].
Qed.

Lemma split_no_separator (sep : ascii) (s : string) :
  all_chars (fun c => negb (Ascii.eqb c sep)) s = true -> Js.split sep s = [s].
Proof.
  induction s as [|c s IH]; [reflexivity|].
  cbn [all_chars Js.split]. intros H. apply andb_true_iff in H. destruct H as [Hc Hs].
  destruct (Ascii.eqb c sep); [discriminate|]. rewrite (IH Hs). reflexivity.
Qed.

Lemma toLowerCase_upper (s : string) :
  Js.toLowerCase (Js.map_chars Js.upper_char s) = Js.toLowerCase s.
Proof.
  unfold Js.toLowerCase. rewrite map_chars_compose.
  apply map_chars_ext. exact lower_upper_char.
Qed.

(** X17: a finding whose location has no colon gets no diagnostic; a
    diagnostic does not depend on the case of the severity, has a line
    that is not negative, and is an error for [critical] and [high], a
    warning for [medium], an information for [low] and [info], and a
    warning for anything else. *)
Theorem diagnostic_of_finding (f : Finding) :
  (all_chars (fun c => negb (Ascii.eqb c ":")) (location f) = true ->
   Extension.createDiagnostic f = None)
  /\ Extension.createDiagnostic (set_severity (Js.map_chars Js.upper_char (severity f)) f)
     = Extension.createDiagnostic f
  /\ forall d,
       Extension.createDiagnostic f = Some d ->
       0 <= Extension.Diagnostic.line d
       /\ Extension.Diagnostic.severity d <> Extension.Hint
       /\ (forall r, Risk.rank (Js.toLowerCase (severity f)) = Some r ->
             Extension.Diagnostic.severity d
             = if (3 <=? r)%nat then Extension.Error
               else if (2 <=? r)%nat then Extension.Warning
               else Extension.Information)
       /\ (Risk.rank (Js.toLowerCase (severity f)) = None ->
           Extension.Diagnostic.severity d = Extension.Warning).
Proof.
  split; [|split].
  - intros Hloc. unfold Extension.createDiagnostic.
    rewrite (split_no_separator ":" _ Hloc). reflexivity.
  - unfold Extension.createDiagnostic. cbn [set_severity location tool title severity].
    rewrite toLowerCase_upper. reflexivity.
  - intros d Hd. destruct (diagnostic_line f d Hd) as (Hline & _ & Hsev).
    split; [exact Hline|]. rewrite Hsev.
    generalize (Js.toLowerCase (severity f)). intros s.
    unfold Extension.diagnostic_severity, Risk.rank.
    destruct (String.eqb_spec s "info") as [->|H1];
      [cbn; split; [discriminate|]; split; [intros r [= <-]; reflexivity|discriminate]|].
    destruct (String.eqb_spec s "low") as [->|H2];
      [cbn; split; [discriminate|]; split; [intros r [= <-]; reflexivity|discriminate]|].
    destruct (String.eqb_spec s "medium") as [->|H3];
      [cbn; split; [discriminate|]; split; [intros r [= <-]; reflexivity|discriminate]|].
    destruct (String.eqb_spec s "high") as [->|H4];
      [cbn; split; [discriminate|]; split; [intros r [= <-]; reflexivity|discriminate]|].
    destruct (String.eqb_spec s "critical") as [->|H5];
      [cbn; split; [discriminate|]; split; [intros r [= <-]; reflexivity|discriminate]|].
    cbn [orb]. split; [discriminate|]. split; [discriminate|reflexivity].
Qed.

(** * The upload route *)

(** X18: an upload stores one file, whose name ends in [.sol], and
    nothing else; a rejected upload stores nothing. *)
Theorem upload_stores_one_sol_file (cwd : string) (form : Upload.Form) (written : bool)
    (disk : gmap string string) :
  let '(response, disk') := Upload.POST cwd form written disk in
  match response with
  | Upload.Uploaded _ path filename =>
      exists file,
        form = Upload.HasFile file /\ written = true
        /\ Js.endsWith (Upload.name file) ".sol" = true
        /\ filename = Upload.name file
        /\ path = ("uploads/" ++ Upload.name file)%string
        /\ disk' !! Upload.filePath cwd file = Some (Upload.bytes file)
        /\ forall p, p <> Upload.filePath cwd file -> disk' !! p = disk !! p
  | Upload.Rejected httpStatus _ =>
      disk' = disk
      /\ (httpStatus = 400
          <-> form = Upload.NoFile
              \/ exists file, form = Upload.HasFile file
                              /\ Js.endsWith (Upload.name file) ".sol" = false)
      /\ (httpStatus = 400 \/ httpStatus = 500)
  end.
Proof.
  unfold Upload.POST. destruct form as [| |file].
  - split; [reflexivity|]. split; [|right; reflexivity].
    split; [discriminate|]. intros [H|(file & H & _)]; discriminate.
  - split; [reflexivity|]. split; [|left; reflexivity].
    split; [intros _; left; reflexivity|reflexivity].
  - destruct (Js.endsWith (Upload.name file) ".sol") eqn:Hsol; cbn [negb].
    + destruct written.
      * exists file. do 2 (split; [reflexivity|]). split; [exact Hsol|].
        do 2 (split; [reflexivity|]). split.
        -- apply lookup_insert_eq.
        -- intros p Hp. apply lookup_insert_ne. congruence.
      * split; [reflexivity|]. split; [|right; reflexivity].
        split; [discriminate|]. intros [H|(file' & [= <-] & H)]; congruence.
    + split; [reflexivity|]. split; [|left; reflexivity].
      split; [|reflexivity]. intros _. right. exists file. auto.
Qed.

(** ** Paths made of segments *)

Lemma split_app (sep : ascii) (a b : string) :
  Js.split sep (a ++ String sep b) = Js.split sep a ++ Js.split sep b.
Proof.
  induction a as [|c a IH]; simpl.
  - rewrite Ascii.eqb_refl. reflexivity.
  - rewrite IH. destruct (Ascii.eqb c sep); [reflexivity|].
    pose proof (split_nonempty sep a) as Hne.
    destruct (Js.split sep a); [congruence|reflexivity].
Qed.

Lemma split_no_slash (sep : ascii) (s : string) :
  Forall (fun w => all_chars (fun c => negb (Ascii.eqb c sep)) w = true) (Js.split sep s).
Proof.
  induction s as [|c s IH]; cbn [Js.split].
  - repeat constructor.
  - destruct (Ascii.eqb c sep) eqn:Hc.
    + constructor; [reflexivity|exact IH].
    + destruct (Js.split sep s) as [|w ws].
      * repeat constructor. cbn [all_chars]. rewrite Hc. reflexivity.
      * inversion IH as [|? ? Hw Hws]; subst. constructor; [|exact Hws].
        cbn [all_chars]. rewrite Hc, Hw. reflexivity.
Qed.

Lemma normalize_app (acc l1 l2 : list string) :
  Path.normalize_segments acc (l1 ++ l2)
  = Path.normalize_segments (rev (Path.normalize_segments acc l1)) l2.
Proof.
  revert acc. induction l1 as [|seg l1 IH]; intros acc; cbn [app Path.normalize_segments].
  - rewrite rev_involutive. reflexivity.
  - destruct (String.eqb seg "" || String.eqb seg "."); [apply IH|].
    destruct (String.eqb seg ".."); apply IH.
Qed.

Lemma normalize_plain (acc l : list string) :
  Forall (fun seg => plain_segment seg = true) l ->
  Path.normalize_segments acc l = rev acc ++ l.
Proof.
  intros H. revert acc. induction H as [|seg l Hseg _ IH]; intros acc;
    cbn [Path.normalize_segments].
  - rewrite app_nil_r. reflexivity.
  - unfold plain_segment in Hseg. apply negb_true_iff in Hseg.
    apply orb_false_iff in Hseg. destruct Hseg as [H1 H2]. rewrite H1, H2.
    rewrite IH. cbn [rev]. rewrite <- app_assoc. reflexivity.
Qed.

Lemma normalize_keeps (P : string -> Prop) (acc l : list string) :
  Forall P l -> Forall (fun seg => plain_segment seg = true /\ P seg) acc ->
  Forall (fun seg => plain_segment seg = true /\ P seg) (Path.normalize_segments acc l).
Proof.
  intros Hl. revert acc. induction Hl as [|seg l Hseg _ IH]; intros acc Hacc;
    cbn [Path.normalize_segments].
  - apply List.Forall_rev. exact Hacc.
  - destruct (String.eqb seg "" || String.eqb seg ".") eqn:H1; [apply IH, Hacc|].
    destruct (String.eqb seg "..") eqn:H2.
    + apply IH. destruct acc; [constructor|]. inversion Hacc; assumption.
    + apply IH. constructor; [|exact Hacc]. split; [|exact Hseg].
      unfold plain_segment. apply orb_false_iff in H1. destruct H1 as [H0 H1].
      rewrite H0, H1, H2. reflexivity.
Qed.

Lemma split_concat (sep : ascii) (segs : list string) :
  segs <> [] ->
  Forall (fun w => all_chars (fun c => negb (Ascii.eqb c sep)) w = true) segs ->
  Js.split sep (String.concat (String sep EmptyString) segs) = segs.
Proof.
  intros Hne H. induction H as [|w segs Hw Hsegs IH]; [congruence|].
  destruct segs as [|w' rest].
  - cbn [String.concat]. apply split_no_separator. exact Hw.
  - change (String.concat (String sep EmptyString) (w :: w' :: rest))
      with (w ++ String sep (String.concat (String sep EmptyString) (w' :: rest)))%string.
    rewrite split_app, IH by discriminate.
    rewrite (split_no_separator sep w Hw). reflexivity.
Qed.

(** The segments of an absolute path in normal form. *)
Lemma segments_of_normal (segs : list string) :
  Forall (fun seg => plain_segment seg = true /\ no_slash seg = true) segs ->
  Path.normalize_segments [] (Js.split "/" ("/" ++ String.concat "/" segs)) = segs.
Proof.
  intros H.
  assert (Hstart : forall s,
            Path.normalize_segments [] (Js.split "/" (String "/" s))
            = Path.normalize_segments [] (Js.split "/" s)) by reflexivity.
  change ("/" ++ String.concat "/" segs)%string with (String "/" (String.concat "/" segs)).
  rewrite Hstart.
  destruct segs as [|w rest].
  - reflexivity.
  - rewrite split_concat.
    + apply normalize_plain. eapply List.Forall_impl; [|exact H]. intros seg [Hp _]. exact Hp.
    + discriminate.
    + eapply List.Forall_impl; [|exact H]. intros seg [_ Hs]. exact Hs.
Qed.

Lemma cwd_segments (cwd : string) :
  Forall (fun seg => plain_segment seg = true /\ no_slash seg = true)
    (Path.normalize_segments [] (Js.split "/" cwd)).
Proof.
  apply normalize_keeps; [|constructor]. apply split_no_slash.
Qed.

Lemma resolve_relative (cwd p : string) :
  Path.isAbsolute p = false ->
  Path.resolve cwd p
  = ("/" ++ String.concat "/"
              (Path.normalize_segments
                 (rev (Path.normalize_segments [] (Js.split "/" cwd)))
                 (Js.split "/" p)))%string.
Proof.
  intros Hrel. unfold Path.resolve. rewrite Hrel.
  change (cwd ++ "/" ++ p)%string with (cwd ++ String "/" p)%string.
  rewrite split_app, normalize_app. reflexivity.
Qed.

Lemma join_segments (a b : string) :
  Upload.join a b
  = ("/" ++ String.concat "/"
              (Path.normalize_segments
                 (rev (Path.normalize_segments [] (Js.split "/" a)))
                 (Js.split "/" b)))%string.
Proof.
  unfold Upload.join.
  change (a ++ "/" ++ b)%string with (a ++ String "/" b)%string.
  rewrite split_app, normalize_app. reflexivity.
Qed.

Lemma append_assoc (a b c : string) : ((a ++ b) ++ c)%string = (a ++ b ++ c)%string.
Proof.
  induction a as [|ch a IH]; [reflexivity|].
  change (String ch ((a ++ b) ++ c) = String ch (a ++ b ++ c)). rewrite IH. reflexivity.
Qed.

Lemma length_append (a b : string) :
  String.length (a ++ b) = (String.length a + String.length b)%nat.
Proof. induction a as [|c a IH]; simpl; [reflexivity|]. rewrite IH. reflexivity. Qed.

Lemma substring_append (a b : string) (k m : nat) :
  String.substring (String.length a + k) m (a ++ b) = String.substring k m b.
Proof. induction a as [|c a IH]; simpl; [reflexivity|exact IH]. Qed.

Lemma endsWith_append (a b suffix : string) :
  Js.endsWith b suffix = true -> Js.endsWith (a ++ b) suffix = true.
Proof.
  unfold Js.endsWith. intros H. apply andb_true_iff in H. destruct H as [Hlen Heq].
  apply Nat.leb_le in Hlen. rewrite length_append.
  apply andb_true_iff. split; [apply Nat.leb_le; lia|].
  replace (String.length a + String.length b - String.length suffix)%nat
    with (String.length a + (String.length b - String.length suffix))%nat by lia.
  rewrite substring_append. exact Heq.
Qed.

Lemma prefix_append (a x y : string) :
  String.prefix x y = true -> String.prefix (a ++ x) (a ++ y) = true.
Proof.
  intros H. induction a as [|c a IH]; simpl; [exact H|].
  destruct (ascii_dec c c); [exact IH|congruence].
Qed.

Lemma prefix_empty (s : string) : String.prefix "" s = true.
Proof. destruct s; reflexivity. Qed.

Lemma concat_prefix (sep : string) (l1 l2 : list string) :
  String.prefix (String.concat sep l1) (String.concat sep (l1 ++ l2)) = true.
Proof.
  induction l1 as [|w l1 IH]; [apply prefix_empty|].
  destruct l1 as [|w' l1'].
  - destruct l2 as [|x l2'].
    + cbn [app String.concat].
      induction w as [|c w IHw]; simpl; [reflexivity|].
      destruct (ascii_dec c c); [exact IHw|congruence].
    + cbn [app String.concat]. apply prefix_app.
  - change (String.concat sep (w :: w' :: l1'))
      with (w ++ sep ++ String.concat sep (w' :: l1'))%string.
    change (String.concat sep ((w :: w' :: l1') ++ l2))
      with (w ++ sep ++ String.concat sep ((w' :: l1') ++ l2))%string.
    apply prefix_append, prefix_append. exact IH.
Qed.

Lemma concat_snoc (sep : string) (l : list string) (x : string) :
  l <> [] ->
  String.concat sep (l ++ [x]) = (String.concat sep l ++ sep ++ x)%string.
Proof.
  induction l as [|w l IH]; [congruence|]. intros _.
  destruct l as [|w' l'].
  - reflexivity.
  - change (String.concat sep ((w :: w' :: l') ++ [x]))
      with (w ++ sep ++ String.concat sep ((w' :: l') ++ [x]))%string.
    rewrite IH by discriminate.
    change (String.concat sep (w :: w' :: l'))
      with (w ++ sep ++ String.concat sep (w' :: l'))%string.
    rewrite !append_assoc. reflexivity.
Qed.

Lemma sol_name_plain (name : string) :
  Js.endsWith name ".sol" = true -> plain_segment name = true.
Proof.
  intros H. unfold plain_segment.
  destruct (String.eqb_spec name "") as [->|_]; [discriminate H|].
  destruct (String.eqb_spec name ".") as [->|_]; [discriminate H|].
  destruct (String.eqb_spec name "..") as [->|_]; [discriminate H|].
  reflexivity.
Qed.

(** X19: the path that an upload returns is one that the scan route
    accepts, and it names the file that was stored. *)
Theorem uploaded_file_can_be_scanned (cwd : string) (file : Upload.File)
    (disk : gmap string string) :
  Path.resolve cwd "." = cwd ->
  no_slash (Upload.name file) = true ->
  Js.endsWith (Upload.name file) ".sol" = true ->
  let '(response, disk') := Upload.POST cwd (Upload.HasFile file) true disk in
  exists message path,
    response = Upload.Uploaded message path (Upload.name file)
    /\ Path.resolve cwd path = Upload.filePath cwd file
    /\ disk' !! Path.resolve cwd path = Some (Upload.bytes file)
    /\ Validation.validateContractPath cwd (Upload.stat_of disk') path
       = Validation.mk true (Some (Upload.filePath cwd file)) None.
Proof.
  intros Hcwd Hslash Hsol.
  unfold Upload.POST. rewrite Hsol. cbn [negb].
  set (name := Upload.name file) in *.
  set (C := Path.normalize_segments [] (Js.split "/" cwd)).
  pose proof (cwd_segments cwd) as HC. fold C in HC.
  assert (Hplain : forall l, Forall (fun seg => plain_segment seg = true /\ no_slash seg = true) l ->
                             Forall (fun seg => plain_segment seg = true) l).
  { intros l Hl. eapply List.Forall_impl; [|exact Hl]. intros seg [Hp _]. exact Hp. }
  assert (Hcwd' : cwd = ("/" ++ String.concat "/" C)%string).
  { rewrite <- Hcwd at 1. rewrite resolve_relative by reflexivity. fold C.
    cbn [Js.split Path.normalize_segments]. cbn. rewrite rev_involutive. reflexivity. }
  assert (Hname : plain_segment name = true /\ no_slash name = true)
    by (split; [apply sol_name_plain; exact Hsol | exact Hslash]).
  assert (Hup : plain_segment "uploads" = true /\ no_slash "uploads" = true)
    by (split; reflexivity).
  assert (Hfile : Upload.filePath cwd file
                  = ("/" ++ String.concat "/" (C ++ ["uploads"; name]))%string).
  { unfold Upload.filePath. fold name.
    assert (Hdir : Upload.join cwd "uploads"
                   = ("/" ++ String.concat "/" (C ++ ["uploads"]))%string).
    { rewrite join_segments. fold C.
      change (Js.split "/" "uploads") with ["uploads"].
      rewrite normalize_plain by (repeat constructor).
      rewrite rev_involutive. reflexivity. }
    rewrite Hdir, join_segments.
    rewrite segments_of_normal
      by (apply List.Forall_app; split; [exact HC|repeat constructor]).
    rewrite (split_no_separator "/" name Hslash).
    rewrite normalize_plain by (constructor; [apply Hname|constructor]).
    rewrite rev_involutive, <- app_assoc. reflexivity. }
  assert (Hres : Path.resolve cwd ("uploads/" ++ name) = Upload.filePath cwd file).
  { rewrite Hfile, resolve_relative by reflexivity. fold C.
    change ("uploads/" ++ name)%string with ("uploads" ++ String "/" name)%string.
    rewrite split_app. change (Js.split "/" "uploads") with ["uploads"].
    rewrite (split_no_separator "/" name Hslash).
    rewrite normalize_plain by (constructor; [reflexivity|constructor; [apply Hname|constructor]]).
    rewrite rev_involutive. reflexivity. }
  do 2 eexists. split; [reflexivity|]. split; [exact Hres|].
  split; [rewrite Hres; apply lookup_insert_eq|].
  unfold Validation.validateContractPath. rewrite Hres.
  assert (Hinc : Js.includes (Upload.filePath cwd file) cwd = true).
  { apply includes_prefix. rewrite Hfile. rewrite Hcwd' at 1.
    apply (prefix_append "/"). apply concat_prefix. }
  rewrite Hinc. cbn [negb].
  unfold Upload.stat_of. rewrite lookup_insert_eq.
  assert (Hends : Js.endsWith (Upload.filePath cwd file) ".sol" = true).
  { rewrite Hfile.
    change (C ++ ["uploads"; name]) with (C ++ ["uploads"] ++ [name]).
    rewrite app_assoc, concat_snoc by (destruct C; discriminate).
    rewrite <- !append_assoc. apply endsWith_append. exact Hsol. }
  rewrite Hends. reflexivity.
Qed.

Lemma uploaded_file_can_be_scanned_witness :
  let '(response, disk') :=
    Upload.POST "/app" (Upload.HasFile (Upload.mkFile "Token.sol" "contract Token {}"))
      true ∅ in
  exists message path,
    response = Upload.Uploaded message path "Token.sol"
    /\ Path.resolve "/app" path
       = Upload.filePath "/app" (Upload.mkFile "Token.sol" "contract Token {}")
    /\ disk' !! Path.resolve "/app" path = Some "contract Token {}"
    /\ Validation.validateContractPath "/app" (Upload.stat_of disk') path
       = Validation.mk true
           (Some (Upload.filePath "/app" (Upload.mkFile "Token.sol" "contract Token {}")))
           None.
Proof.
  apply (uploaded_file_can_be_scanned "/app" (Upload.mkFile "Token.sol" "contract Token {}") ∅);
    reflexivity.
Defined.

(** * The scan and the analytics together *)

(** X21: a successful scan whose ledger write reaches the disk adds one
    scan to the analytics, up to the 100 scans the ledger keeps, and its
    findings to the total while the ledger is not full. *)
Theorem analytics_after_scan (env : Scan.Env) (w : Scan.World) (report : ScanReport) :
  fst (Scan.POST env w) = Scan.Ok report ->
  Scan.disk_ok env Scan.AtHistory = true ->
  let w' := snd (Scan.POST env w) in
  let before := Analytics.GET (Scan.ledger w) (Scan.cache w) in
  let after := Analytics.GET (Scan.ledger w') (Scan.cache w') in
  Analytics.Snapshot.totalScans after
  = Z.min 100 (Analytics.Snapshot.totalScans before + 1)
  /\ (Analytics.Snapshot.totalScans before < 100 ->
      Analytics.Snapshot.totalFindings after
      = Analytics.Snapshot.totalFindings before + total_findings (metadata report)).
Proof.
  intros Hok Hhistory. cbv zeta.
  assert (Hledger : Scan.ledger (snd (Scan.POST env w))
                    = Some (firstn 100 (Scan.historyEntry report
                                          :: default [] (Scan.ledger w)))).
  { destruct (POST_run env w) as
      [(message & Hb & HP) | [(error & code & HP & Hinv) | (request & p & Hb & Hpath & Hne & Hv & Hrun)]].
    - rewrite HP in Hok. unfold Scan.on_error in Hok. cbn [fst] in Hok. discriminate.
    - rewrite HP in Hok. cbn [fst] in Hok. discriminate.
    - cbv zeta in Hrun.
      match type of Hrun with
      | context [Scan.executeScanPipeline ?e ?i ?pp ?a ?s ?tt ?pl ?w'] =>
          pose proof (pipeline_frame e i pp a s tt pl w') as (Hl1 & _ & _);
          destruct (Scan.executeScanPipeline e i pp a s tt pl w') as [[message|report0] w1]
      end; cbn [fst snd] in Hrun, Hl1; rewrite Hrun in Hok |- *.
      + unfold Scan.on_error in Hok. cbn [fst] in Hok. discriminate.
      + cbn [fst snd] in Hok |- *. set (r := with_metadata _ _) in *.
        injection Hok as Hok. subst report.
        rewrite Hhistory.
        destruct (updateScanStatus_frame (Scan.disk_ok env Scan.AtInitializing) (Scan.uuid env)
                    "running" "Initializing scan pipeline..." (Scan.issue (Scan.uuid env) w))
          as (Hl0 & _ & _ & _).
        rewrite Hl0 in Hl1. change (Scan.ledger (Scan.issue (Scan.uuid env) w))
                             with (Scan.ledger w) in Hl1.
        destruct (Scan.disk_ok env Scan.AtCompleted), (Scan.disk_ok env Scan.AtCache);
          cbn [Scan.updateScanStatus Scan.cacheReport Scan.saveToHistory Scan.ledger];
          rewrite Hl1, append_is_firstn; reflexivity. }
  rewrite Hledger. set (entry := Scan.historyEntry report).
  assert (Hbefore : forall cache,
            Analytics.Snapshot.totalScans (Analytics.GET (Scan.ledger w) cache)
            = Z.of_nat (List.length (default [] (Scan.ledger w)))
            /\ Analytics.Snapshot.totalFindings (Analytics.GET (Scan.ledger w) cache)
               = Analytics.sum (map History.findings_count (default [] (Scan.ledger w)))).
  { intros cache. destruct (Scan.ledger w) as [h|]; cbn [Analytics.GET default].
    - unfold Datatypes.id.
      cbn [Analytics.Snapshot.totalScans Analytics.Snapshot.totalFindings].
      rewrite fold_sum_map. split; [reflexivity|lia].
    - split; reflexivity. }
  destruct (Hbefore (Scan.cache w)) as [-> ->].
  generalize (default [] (Scan.ledger w)). intros h.
  cbn [Analytics.GET Analytics.Snapshot.totalScans Analytics.Snapshot.totalFindings].
  split.
  - rewrite List.length_firstn. cbn [List.length]. lia.
  - intros Hlt. rewrite fold_sum_map.
    rewrite firstn_all2 by (cbn [List.length]; lia).
    cbn [map]. rewrite sum_cons. subst entry. cbn [Scan.historyEntry History.findings_count].
    lia.
Qed.

Lemma analytics_after_scan_witness :
  exists report,
    fst (Scan.POST Sample.env_ai_fails Sample.fresh) = Scan.Ok report
    /\ let w' := snd (Scan.POST Sample.env_ai_fails Sample.fresh) in
       let before := Analytics.GET (Scan.ledger Sample.fresh) (Scan.cache Sample.fresh) in
       let after := Analytics.GET (Scan.ledger w') (Scan.cache w') in
       Analytics.Snapshot.totalScans after
       = Z.min 100 (Analytics.Snapshot.totalScans before + 1)
       /\ (Analytics.Snapshot.totalScans before < 100 ->
           Analytics.Snapshot.totalFindings after
           = Analytics.Snapshot.totalFindings before + total_findings (metadata report)).
Proof.
  eexists. split; [vm_compute; reflexivity|].
  apply (analytics_after_scan Sample.env_ai_fails Sample.fresh); reflexivity.
Defined.
